(** * millipede_bar: the 1D analytical wave-splitting model

    A shallow embedding of [src/millipede_bar.py] ([get_incident_data],
    [model_1d], [main]) and the properties its specification states.

    Numbers.  The program computes with IEEE binary64 values (Python floats
    and numpy float64 arrays).  In the main development they are embedded
    as exact real numbers: every arithmetic operation is the real
    operation, without rounding, overflow or underflow.  An absent table
    cell (pandas NaN) is [None].

    A real number cannot stand for an infinity or a NaN.  The program
    produces one from finite inputs in four places: the quotient by a peak
    of zero in [get_incident_data]; the median of an empty array of
    differences (a table of one sample); a kernel value when [exp] leaves
    the binary64 range (times beyond about 745 or below about -709
    characteristic times), which is then 0.0 or infinite; and the quotient
    by a kernel sum that is 0.0 or infinite.  There the real-valued
    operation of the standard library stands in, and the theorems that
    carry a property of the program (marked C or X) do not rest on its
    value: they state outcomes, shapes, the rows of the returned table,
    relations between the arrays of one run or of two runs, and values on
    inputs on which every quantity stays in range, where rounding is all
    that separates the program from the model.

    The delay (lines 78 to 82) is decided by a floor division, which the
    last bit of its operands can move by a whole step.  Module [binary64]
    evaluates it in binary64 itself.

    Errors.  Python exceptions are the constructors of [exn]; a function
    that may raise returns a [result]. *)

From Stdlib Require Import Floats.
From Stdlib Require Import Reals Lra Lia ZArith String Ascii.
From stdpp Require Import gmap strings list sorting.

#[local] Open Scope R_scope.
#[local] Open Scope string_scope.
#[local] Set Warnings "-inexact-float".

(* ===================================================================== *)
(** ** Exceptions *)
(* ===================================================================== *)

Inductive exn : Type :=
| KeyError (key : string)
| ZeroDivisionError
| ValueError (msg : string).

Inductive result (A : Type) : Type :=
| Ok (a : A)
| Raise (e : exn).

Arguments Ok {A} a.
Arguments Raise {A} e.

#[global] Instance result_ret : MRet result := fun A a => Ok a.

#[global] Instance result_bind : MBind result := fun A B f m =>
  match m with
  | Ok a => f a
  | Raise e => Raise e
  end.

(* ===================================================================== *)
(** ** Decidable comparisons on the reals *)
(* ===================================================================== *)

#[global] Instance R_eq_dec : EqDecision R := Req_dec_T.
#[global] Instance Rlt_decision (x y : R) : Decision (x < y) := Rlt_dec x y.
#[global] Instance Rle_decision (x y : R) : Decision (x <= y) := Rle_dec x y.

(* ===================================================================== *)
(** ** Python and numpy primitives *)
(* ===================================================================== *)

(** [d[k]] on a Python dict: [KeyError] when the key is absent. *)
Definition getitem {V : Type} (d : gmap string V) (k : string) : result V :=
  match d !! k with
  | Some v => Ok v
  | None => Raise (KeyError k)
  end.

(** [x / y] on two Python numbers: [ZeroDivisionError] on a zero divisor.
    (Division with a numpy operand never raises; it is plain [Rdiv].) *)
Definition py_truediv (x y : R) : result R :=
  if decide (y = 0) then Raise ZeroDivisionError else Ok (x / y).

(** The builtin [max] on a list: [ValueError] on the empty list, otherwise
    the first largest element. *)
Definition py_max (l : list R) : result R :=
  match l with
  | [] => Raise (ValueError "max() arg is an empty sequence")
  | x :: l' => Ok (foldl (fun m y => if decide (m < y) then y else m) x l')
  end.

(** [str.lower], on ASCII letters. *)
Definition lower_ascii (a : ascii) : ascii :=
  let n := nat_of_ascii a in
  if (65 <=? n)%nat && (n <=? 90)%nat then ascii_of_nat (n + 32) else a.

Fixpoint lower (s : string) : string :=
  match s with
  | EmptyString => EmptyString
  | String a s' => String (lower_ascii a) (lower s')
  end.

(** [a[np.where(a > 0.0)] = 0] on one element: a positive sample becomes
    zero, any other is kept. *)
Definition clamp (x : R) : R := if decide (0 < x) then 0 else x.

(** [np.sum]. *)
Definition sum (a : list R) : R := foldr Rplus 0 a.

(** [np.diff]: the consecutive differences [a[i+1] - a[i]]. *)
Fixpoint diff (a : list R) : list R :=
  match a with
  | x :: (y :: _) as a' => (y - x) :: diff a'
  | _ => []
  end.

(** Sorting, as [np.median] and the outer join need it. *)
Fixpoint insert_sorted (x : R) (l : list R) : list R :=
  match l with
  | [] => [x]
  | y :: l' => if decide (x <= y) then x :: l else y :: insert_sorted x l'
  end.

Definition sort (l : list R) : list R := foldr insert_sorted [] l.

(** [np.median]: the middle element of the sorted array, or the mean of
    the two middle elements when the length is even.  (On the empty array
    numpy answers NaN; here the value is [0], and no theorem reads it.) *)
Definition median (a : list R) : R :=
  let s := sort a in
  let n := length s in
  if Nat.even n
  then (nth (n / 2 - 1) s 0 + nth (n / 2) s 0) / 2
  else nth (n / 2) s 0.

(** [np.rint]: the nearest integer, ties to the even one. *)
Definition rint (x : R) : Z :=
  let f := Zfloor x in
  let r := x - IZR f in
  if decide (r < 1 / 2) then f
  else if decide (1 / 2 < r) then (f + 1)%Z
  else if Z.even f then f else (f + 1)%Z.

(** [np.around(x, decimals)] for [decimals >= 0]: scale by [10^decimals],
    round to the nearest integer, scale back. *)
Definition around (x : R) (decimals : nat) : R :=
  IZR (rint (x * 10 ^ decimals)) / 10 ^ decimals.

(** [a // b] on floats: the floor of the quotient, here of the exact
    quotient of exact operands.  (The program floors the quotient of two
    rounded products, which can be one less: see [binary64.floor_divide]
    and [binary64.delay].) *)
Definition floor_divide (a b : R) : R := IZR (Zfloor (a / b)).

(** [np.convolve(a, v)] in its default mode "full":
    [(a * v)[n] = sum over m of a[m] * v[n - m]], of length
    [len(a) + len(v) - 1]; [ValueError] when an operand is empty. *)
Definition convolve_at (a v : list R) (n : nat) : R :=
  sum ((fun m => nth m a 0 * nth (n - m) v 0) <$> seq 0 (S n)).

Definition convolve (a v : list R) : result (list R) :=
  match a, v with
  | [], _ => Raise (ValueError "a cannot be empty")
  | _, [] => Raise (ValueError "v cannot be empty")
  | _, _ => Ok (convolve_at a v <$> seq 0 (length a + length v - 1))
  end.

(* ===================================================================== *)
(** ** Data *)
(* ===================================================================== *)

(** The incident DataFrame: rows of (Time index, Incident). *)
Abbreviation DataFrame := (list (R * R)).

(** What [get_incident_data] sees of its file: the suffix of the path and
    the two columns pandas reads from it, Time and Incident, an empty or
    missing Incident cell being [None]. *)
Record csv_file : Type := {
  suffix : string;
  read_csv : list (R * option R)
}.

(** [df.dropna()] after [set_index("Time")]: the rows whose Incident cell
    is missing are dropped. *)
Definition dropna (rows : list (R * option R)) : DataFrame :=
  omap (fun r => match r.2 with Some a => Some (r.1, a) | None => None end) rows.

(** The parameter table loaded from TOML: sections of named numbers. *)
Abbreviation toml_table := (gmap string (gmap string R)).

(** A row of the merged output table; [None] is an absent value. *)
Record row : Type := {
  Time : R;
  Incident : option R;
  Reflected : option R;
  Transmitted : option R
}.

(** [left.merge(right, how="outer", left_index=True, right_index=True)]:
    the keys of both sides in increasing order; every key carries the
    pairs of left and right rows it indexes, a side without the key being
    absent. *)
Definition merge_outer (left : DataFrame) (right : list (R * (R * R))) : list row :=
  let keys := remove_dups (sort (left.*1 ++ right.*1)) in
  k ← keys;
  let ls := filter (fun l => l.1 = k) left in
  let rs := filter (fun r => r.1 = k) right in
  match ls, rs with
  | [], _ => (fun r => Build_row k None (Some r.2.1) (Some r.2.2)) <$> rs
  | _, [] => (fun l => Build_row k (Some l.2) None None) <$> ls
  | _, _ => l ← ls; (fun r => Build_row k (Some l.2) (Some r.2.1) (Some r.2.2)) <$> rs
  end.

(* ===================================================================== *)
(** ** get_incident_data *)
(* ===================================================================== *)

(** The extension check, the two columns without the records that lack an
    amplitude, and every amplitude divided by the largest absolute one.
    (pandas' [div] never raises.  When that peak is [0] every quotient is a
    NaN in the program; the real quotient written here has no meaning
    then, and no theorem reads it.) *)
Definition get_incident_data (file : csv_file) : result DataFrame :=
  if decide (lower (suffix file) = ".csv") then
    let df := dropna (read_csv file) in
    max_signal ← py_max ((fun r => Rabs r.2) <$> df);
    Ok ((fun r => (r.1, r.2 / max_signal)) <$> df)
  else Raise (ValueError "Extension must be .csv").

(* ===================================================================== *)
(** ** model_1d *)
(* ===================================================================== *)

(** The local variables of [model_1d] when it reaches its last statement.
    (The kernel is evaluated at the times of the table as they are, line
    84; its real values are always positive, its binary64 values are 0.0
    or infinite once [exp] leaves the binary64 range.) *)
Record locals : Type := {
  elastic_modulus : R;
  density : R;
  c : R;
  junction_length : R;
  t_ch : R;
  gage_distance : R;
  time : list R;
  dt : R;
  incident : list R;
  delay : R;
  kernel : list R;
  transmitted : list R;
  reflected : list R;
  time_output : list R
}.

Definition model_1d_locals (df_incident : DataFrame)
    (experimental_parameters : toml_table) : result locals :=
  material_properties ← getitem experimental_parameters "material_properties";
  elastic_modulus ← getitem material_properties "elastic_modulus";
  density ← getitem material_properties "density";
  q ← py_truediv elastic_modulus density;
  let c := sqrt q in
  geometric_parameters ← getitem experimental_parameters "geometric_parameters";
  junction_length ← getitem geometric_parameters "junction_length";
  let t_ch := junction_length / c in
  let gage_distance :=
    match getitem geometric_parameters "gage_distance" with
    | Ok g => g
    | Raise _ => 0
    end in
  let time := df_incident.*1 in
  let dt := around (median (diff time)) 9 in
  let incident := clamp <$> df_incident.*2 in
  let delay :=
    if decide (gage_distance = 0) then 0
    else
      let delay := around ((2 * gage_distance + junction_length) / c) 9 in
      floor_divide (delay * 1e9) (dt * 1e9) * dt in
  let kernel := (fun t => exp ((- t) / t_ch) / t_ch) <$> time in
  conv ← convolve kernel incident;
  let transmitted := (fun x => -1 * x / sum kernel) <$> conv in
  let transmitted := take (length incident) transmitted in
  let reflected := zip_with (fun i t => - (i + t)) incident transmitted in
  let time_output := (fun t => around (t + delay) 9) <$> time in
  Ok {| elastic_modulus := elastic_modulus; density := density; c := c;
        junction_length := junction_length; t_ch := t_ch;
        gage_distance := gage_distance; time := time; dt := dt;
        incident := incident; delay := delay; kernel := kernel;
        transmitted := transmitted; reflected := reflected;
        time_output := time_output |}.

(** [model_1d]: the table of Reflected and Transmitted on the delayed time
    axis, joined with the incident table. *)
Definition model_1d (df_incident : DataFrame)
    (experimental_parameters : toml_table) : result (list row) :=
  l ← model_1d_locals df_incident experimental_parameters;
  let df_output := zip (time_output l) (zip (reflected l) (transmitted l)) in
  Ok (merge_outer df_incident df_output).

(** [main], without its file system effects: the parameters are the table
    [toml.load] returned. *)
Definition main (incident : csv_file) (parameters : toml_table) : result (list row) :=
  df_incident ← get_incident_data incident;
  model_1d df_incident parameters.

(* ===================================================================== *)
(** ** The delay in binary64 *)
(* ===================================================================== *)

(** Lines 62, 72 to 74 and 78 to 82 of [model_1d] on binary64 values: the
    wave speed, the sample interval and the delay.  Addition, subtraction,
    multiplication, division and the square root are the correctly rounded
    operations of IEEE 754, which the primitive floats provide bit for bit;
    rounding to an integer and the floor of a quotient are exact operations
    on the integers a finite binary64 value is made of.  A decimal literal
    denotes the binary64 value nearest to it, as in Python. *)
Module binary64.

(** A finite value as a pair of integers [(m, e)]: the value is
    [m * 2^e]. *)
Definition to_dyadic (x : float) : option (Z * Z) :=
  match Prim2SF x with
  | S754_zero _ => Some (0, 0)%Z
  | S754_finite s m e => Some (if s then Z.neg m else Z.pos m, e)
  | S754_infinity _ | S754_nan => None
  end.

(** The binary64 value nearest to an integer. *)
Definition of_Z (k : Z) : float := SF2Prim (binary_normalize prec emax k 0 false).

(** The integer nearest to [m / d], ties to the even one ([0 < d]). *)
Definition round_half_even (m d : Z) : Z :=
  let f := (m / d)%Z in
  let r := (m mod d)%Z in
  if (2 * r <? d)%Z then f
  else if (d <? 2 * r)%Z then (f + 1)%Z
  else if Z.even f then f else (f + 1)%Z.

(** [np.rint]: the nearest integer, ties to the even one; a zero result
    keeps the sign of the argument, an infinity or a NaN is returned as it
    is. *)
Definition rint (x : float) : float :=
  match to_dyadic x with
  | Some (m, e) =>
      if (0 <=? e)%Z then x
      else
        let k := round_half_even m (2 ^ (- e)) in
        if (k =? 0)%Z then (x * 0)%float else of_Z k
  | None => x
  end.

(** [np.floor]. *)
Definition floor (x : float) : float :=
  match to_dyadic x with
  | Some (m, e) =>
      if (0 <=? e)%Z then x
      else
        let k := (m / 2 ^ (- e))%Z in
        if (k =? 0)%Z then (x * 0)%float else of_Z k
  | None => x
  end.

(** [np.around(x, decimals)] for [decimals >= 0]: scale by [10^decimals],
    round to the nearest integer, scale back. *)
Definition around (x : float) (decimals : nat) : float :=
  let p := of_Z (10 ^ Z.of_nat decimals) in
  (rint (x * p) / p)%float.

(** [a // b] on numpy floats.  numpy takes the quotient from the remainder
    [fmod(a, b)], which is exact: for finite operands the result is the
    floor of the exact quotient of the two binary64 values (rounded, should
    it need more than 53 bits).  A zero divisor gives [a / b]; an infinite
    or NaN operand gives NaN here (numpy answers [0] or [-1] for a finite
    [a] and an infinite [b]). *)
Definition floor_divide (a b : float) : float :=
  if (b =? 0)%float then (a / b)%float
  else
    match to_dyadic a, to_dyadic b with
    | Some (ma, ea), Some (mb, eb) =>
        let e := Z.min ea eb in
        let k := ((ma * 2 ^ (ea - e)) / (mb * 2 ^ (eb - e)))%Z in
        if (k =? 0)%Z then (0 * (a / b))%float else of_Z k
    | _, _ => nan
    end.

(** [np.diff]. *)
Fixpoint diff (a : list float) : list float :=
  match a with
  | x :: (y :: _) as a' => (y - x)%float :: diff a'
  | _ => []
  end.

Fixpoint insert_sorted (x : float) (l : list float) : list float :=
  match l with
  | [] => [x]
  | y :: l' => if (x <=? y)%float then x :: l else y :: insert_sorted x l'
  end.

Definition sort (l : list float) : list float := foldr insert_sorted [] l.

(** [np.median]: NaN on the empty array and on an array that holds a NaN,
    otherwise the middle element of the sorted array, or the mean of the
    two middle elements. *)
Definition median (a : list float) : float :=
  let s := sort a in
  let n := length s in
  if existsb is_nan a then nan
  else if (n =? 0)%nat then nan
  else if Nat.even n
  then ((nth (n / 2 - 1) s 0 + nth (n / 2) s 0) / 2)%float
  else nth (n / 2) s 0%float.

(** The local variable [delay] of [model_1d] on a table with the index
    [time], for a nonzero [density]. *)
Definition delay (time : list float)
    (elastic_modulus density junction_length gage_distance : float) : float :=
  let c := PrimFloat.sqrt (elastic_modulus / density) in
  let dt := around (median (diff time)) 9 in
  if (gage_distance =? 0)%float then 0%float
  else
    let delay := around ((2 * gage_distance + junction_length) / c) 9 in
    (floor_divide (delay * 1e9) (dt * 1e9) * dt)%float.

End binary64.

(* ===================================================================== *)
(** ** Inputs *)
(* ===================================================================== *)

(** The four parameters as [model_1d] reads them from the table:
    [elastic_modulus], [density], [junction_length], and [gage_distance]
    when it is given; [None] when a required section or key is absent. *)
Definition read_parameters (p : toml_table) : option (R * R * R * option R) :=
  mp ← p !! "material_properties";
  E ← mp !! "elastic_modulus";
  rho ← mp !! "density";
  gp ← p !! "geometric_parameters";
  L ← gp !! "junction_length";
  Some (E, rho, L, gp !! "gage_distance").

(** Valid parameters: the three required ones are present and positive. *)
Definition valid_parameters (p : toml_table) : Prop :=
  exists E rho L g,
    read_parameters p = Some (E, rho, L, g) /\ 0 < E /\ 0 < rho /\ 0 < L.

(** A time that already lies on the nanosecond grid [np.around(_, 9)]
    rounds to. *)
Definition on_grid (t : R) : Prop := exists k : Z, t = IZR k / 10 ^ 9.

(** Scenario A: 1000 samples of a constant incident signal -1.0, taken
    every microsecond from time 0. *)
Definition scenario_A_df : DataFrame :=
  (fun k => (INR k * 1e-6, -1)) <$> seq 0 1000.

Definition scenario_A_parameters : toml_table :=
  {[ "material_properties" :=
       {[ "elastic_modulus" := 70e9; "density" := 2700 ]};
     "geometric_parameters" :=
       {[ "junction_length" := 0.5; "gage_distance" := 0 ]} ]}.

(** Scenario B: an incident file whose amplitudes are all zero. *)
Definition zero_file : csv_file :=
  {| suffix := ".csv"; read_csv := [(0, Some 0); (1e-6, Some 0)] |}.

(** Scenario C: a parameter table without [density]. *)
Definition no_density_parameters : toml_table :=
  {[ "material_properties" := {[ "elastic_modulus" := 70e9 ]};
     "geometric_parameters" := {[ "junction_length" := 0.5 ]} ]}.

(** An incident file with a missing cell and an upper-case suffix, and the
    table [get_incident_data] makes of a short pulse. *)
Definition pulse_file : csv_file :=
  {| suffix := ".CSV";
     read_csv := [(0, Some 1); (1e-6, None); (2e-6, Some (-5)); (3e-6, Some (-2.5))] |}.

Definition pulse_df : DataFrame := [(0, 0.2); (1e-6, -1); (2e-6, -0.5)].

(** The same material with a strain gage 0.1 m from the junction, and with
    a negative junction length. *)
Definition gage_parameters : toml_table :=
  {[ "material_properties" :=
       {[ "elastic_modulus" := 70e9; "density" := 2700 ]};
     "geometric_parameters" :=
       {[ "junction_length" := 0.5; "gage_distance" := 0.1 ]} ]}.

Definition negative_length_parameters : toml_table :=
  {[ "material_properties" :=
       {[ "elastic_modulus" := 70e9; "density" := 2700 ]};
     "geometric_parameters" := {[ "junction_length" := -0.5 ]} ]}.

(** Two samples a quarter of a nanosecond apart. *)
Definition subnanosecond_df : DataFrame := [(0, -1); (2.5e-10, -1)].

(** The pulse file with every amplitude doubled, and the file that holds
    the series prepared from the pulse file. *)
Definition pulse_file_doubled : csv_file :=
  {| suffix := ".csv";
     read_csv := [(0, Some (2 * 1)); (1e-6, None); (2e-6, Some (2 * -5));
                  (3e-6, Some (2 * -2.5))] |}.

Definition prepared_pulse_file : csv_file :=
  {| suffix := ".csv";
     read_csv := [(0, Some (1 / 5)); (2e-6, Some (-5 / 5)); (3e-6, Some (-2.5 / 5))] |}.

(** The rows of the outer join at one key, as [merge_outer] builds them. *)
Definition rows_at (left : DataFrame) (right : list (R * (R * R))) (k : R) : list row :=
  let ls := filter (fun l => l.1 = k) left in
  let rs := filter (fun r => r.1 = k) right in
  match ls, rs with
  | [], _ => (fun r => Build_row k None (Some r.2.1) (Some r.2.2)) <$> rs
  | _, [] => (fun l => Build_row k (Some l.2) None None) <$> ls
  | _, _ => l ← ls; (fun r => Build_row k (Some l.2) (Some r.2.1) (Some r.2.2)) <$> rs
  end.

(** An incident table with one irregular interval, and one on a grid of
    one microsecond. *)
Definition jitter_df : DataFrame :=
  [(0, -1); (1e-6, -0.5); (2e-6, -0.2); (3.5e-6, 0); (4.5e-6, 0)].

Definition grid_df : DataFrame :=
  (fun i : nat => (IZR (0 + Z.of_nat i * 1000) / 10 ^ 9, -1)) <$> seq 0 4.

(** A table whose times start one second after the origin. *)
Definition late_df : DataFrame := [(1, -1); (1.000001, -0.5)].

(** The pulse table with another last amplitude. *)
Definition pulse_df_late : DataFrame := [(0, 0.2); (1e-6, -1); (2e-6, 0.7)].

(* ===================================================================== *)
(** ** The primitives on small inputs *)
(* ===================================================================== *)

(** Settles the comparisons of concrete reals a definition branches on,
    innermost first. *)
Ltac decide_reals :=
  repeat match goal with
  | |- context [decide ?P] =>
      first [ destruct (decide P); [ | exfalso; lra ]
            | destruct (decide P); [ exfalso; lra | ] ]
  end.

Example diff_example : diff [0; 1; 3] = [1 - 0; 3 - 1].
Proof. reflexivity. Qed.

Example lower_example : lower ".CSV" = ".csv".
Proof. reflexivity. Qed.

Example clamp_example : clamp 0.2 = 0 /\ clamp (-1) = -1 /\ clamp 0 = 0.
Proof. unfold clamp. repeat split; decide_reals; reflexivity. Qed.

Example py_max_example : py_max [1; 3; 2] = Ok 3.
Proof. unfold py_max. cbn [foldl]. decide_reals. reflexivity. Qed.

Example median_odd_example : median [3; 1; 2] = 2.
Proof.
  unfold median, sort. cbn [foldr insert_sorted]. decide_reals.
  cbn [insert_sorted]. decide_reals. reflexivity.
Qed.

Example median_even_example : median [4; 1; 3; 2] = (2 + 3) / 2.
Proof.
  unfold median, sort. cbn [foldr insert_sorted]. decide_reals.
  cbn [insert_sorted]. decide_reals. cbn [insert_sorted]. decide_reals.
  cbn [insert_sorted]. decide_reals. reflexivity.
Qed.

Example convolve_example : convolve [1; 2] [3; 4; 5] = Ok [3; 10; 13; 10].
Proof.
  unfold convolve, convolve_at, sum. cbn. repeat f_equal; lra.
Qed.

Example dropna_example :
  dropna (read_csv pulse_file) = [(0, 1); (2e-6, -5); (3e-6, -2.5)].
Proof. reflexivity. Qed.

(** The binary64 primitives: ties go to the even integer, the floor
    division sees that the binary64 value of [0.1] lies above one tenth,
    and a quotient by zero is an infinity. *)
Example binary64_rint_example :
  binary64.rint 0.5 = 0%float /\ binary64.rint 1.5 = 2%float /\
  binary64.rint 2.5 = 2%float /\ binary64.rint (-1.5) = (-2)%float /\
  binary64.rint 2.4 = 2%float.
Proof. vm_compute. repeat split; reflexivity. Qed.

Example binary64_around_example :
  binary64.around 0.1234567894 9 = 0.123456789%float.
Proof. vm_compute. reflexivity. Qed.

Example binary64_floor_divide_example :
  binary64.floor_divide 7 2 = 3%float /\ binary64.floor_divide (-7) 2 = (-4)%float /\
  binary64.floor_divide 1 0.1 = 9%float /\ (1 / 0.1 = 10)%float /\
  binary64.floor_divide 1 0 = infinity.
Proof. vm_compute. repeat split; reflexivity. Qed.

Example binary64_median_example :
  binary64.median [3; 1; 2]%float = 2%float /\
  binary64.median [4; 1; 2; 3]%float = 2.5%float /\
  is_nan (binary64.median []) = true.
Proof. vm_compute. repeat split; reflexivity. Qed.

(* ===================================================================== *)
(** ** The error monad *)
(* ===================================================================== *)

Lemma bind_Ok_inv {A B : Type} (m : result A) (f : A -> result B) (b : B) :
  m ≫= f = Ok b -> exists a, m = Ok a /\ f a = Ok b.
Proof. destruct m as [a|e]; simpl; [eauto | discriminate]. Qed.

Lemma getitem_Ok {V : Type} (d : gmap string V) (k : string) (v : V) :
  getitem d k = Ok v <-> d !! k = Some v.
Proof. unfold getitem. destruct (d !! k); split; congruence. Qed.

Lemma getitem_Raise {V : Type} (d : gmap string V) (k : string) (e : exn) :
  getitem d k = Raise e <-> d !! k = None /\ e = KeyError k.
Proof.
  unfold getitem. destruct (d !! k); split.
  - discriminate.
  - intros [? _]; discriminate.
  - intros [= <-]; auto.
  - intros [_ ->]; reflexivity.
Qed.

Lemma py_truediv_Ok (x y q : R) :
  py_truediv x y = Ok q <-> y <> 0 /\ q = x / y.
Proof.
  unfold py_truediv. destruct (decide (y = 0)); split.
  - discriminate.
  - intros [? _]; contradiction.
  - intros [= <-]; auto.
  - intros [_ ->]; reflexivity.
Qed.

Lemma convolve_Ok (a v conv : list R) :
  convolve a v = Ok conv <->
  a <> [] /\ v <> [] /\ conv = convolve_at a v <$> seq 0 (length a + length v - 1).
Proof.
  unfold convolve. destruct a as [|x a], v as [|y v]; split;
    try discriminate; try (intros (? & ? & ?); congruence).
  intros [= <-]; auto.
Qed.

(* ===================================================================== *)
(** ** What model_1d leaves in its local variables *)
(* ===================================================================== *)

Lemma model_1d_locals_inv (df : DataFrame) (p : toml_table) (l : locals) :
  model_1d_locals df p = Ok l ->
  exists mp gp conv,
    p !! "material_properties" = Some mp /\
    mp !! "elastic_modulus" = Some (elastic_modulus l) /\
    mp !! "density" = Some (density l) /\
    density l <> 0 /\
    c l = sqrt (elastic_modulus l / density l) /\
    p !! "geometric_parameters" = Some gp /\
    gp !! "junction_length" = Some (junction_length l) /\
    t_ch l = junction_length l / c l /\
    gage_distance l = default 0 (gp !! "gage_distance") /\
    time l = df.*1 /\
    dt l = around (median (diff (time l))) 9 /\
    incident l = clamp <$> df.*2 /\
    delay l =
      (if decide (gage_distance l = 0) then 0
       else floor_divide
              (around ((2 * gage_distance l + junction_length l) / c l) 9 * 1e9)
              (dt l * 1e9) * dt l) /\
    kernel l = (fun t => exp ((- t) / t_ch l) / t_ch l) <$> time l /\
    convolve (kernel l) (incident l) = Ok conv /\
    transmitted l =
      take (length (incident l)) ((fun x => -1 * x / sum (kernel l)) <$> conv) /\
    reflected l = zip_with (fun i t => - (i + t)) (incident l) (transmitted l) /\
    time_output l = (fun t => around (t + delay l) 9) <$> time l.
Proof.
  unfold model_1d_locals. intros H.
  apply bind_Ok_inv in H as (mp & Hmp & H).
  apply bind_Ok_inv in H as (E & HE & H).
  apply bind_Ok_inv in H as (rho & Hrho & H).
  apply bind_Ok_inv in H as (q & Hq & H).
  apply bind_Ok_inv in H as (gp & Hgp & H).
  apply bind_Ok_inv in H as (L & HL & H).
  apply bind_Ok_inv in H as (conv & Hconv & H).
  injection H as <-. cbn [elastic_modulus density c junction_length t_ch
    gage_distance time dt incident delay kernel transmitted reflected time_output].
  apply getitem_Ok in Hmp, HE, Hrho, Hgp, HL.
  apply py_truediv_Ok in Hq as [Hrho0 ->].
  exists mp, gp, conv.
  repeat split; try assumption; try reflexivity.
  unfold getitem. destruct (gp !! "gage_distance"); reflexivity.
Qed.

Lemma read_parameters_Some (p : toml_table) (E rho L : R) (g : option R) :
  read_parameters p = Some (E, rho, L, g) <->
  exists mp gp,
    p !! "material_properties" = Some mp /\
    mp !! "elastic_modulus" = Some E /\
    mp !! "density" = Some rho /\
    p !! "geometric_parameters" = Some gp /\
    gp !! "junction_length" = Some L /\
    gp !! "gage_distance" = g.
Proof.
  unfold read_parameters. split.
  - intros H.
    destruct (p !! "material_properties") as [mp|] eqn:Hmp; [|discriminate].
    cbn in H.
    destruct (mp !! "elastic_modulus") as [E'|] eqn:HE; [|discriminate].
    destruct (mp !! "density") as [rho'|] eqn:Hrho; [|discriminate].
    destruct (p !! "geometric_parameters") as [gp|] eqn:Hgp; [|discriminate].
    cbn in H.
    destruct (gp !! "junction_length") as [L'|] eqn:HL; [|discriminate].
    cbn in H. injection H as -> -> -> <-.
    exists mp, gp. auto 10.
  - intros (mp & gp & -> & HE & Hrho & -> & HL & <-). cbn.
    rewrite HE, Hrho. cbn. rewrite HL. reflexivity.
Qed.

(** With the required keys present, a nonzero density and at least one
    sample, [model_1d] runs through to its last statement. *)
Lemma model_1d_locals_Ok (df : DataFrame) (p : toml_table)
    (E rho L : R) (g : option R) :
  read_parameters p = Some (E, rho, L, g) -> rho <> 0 -> df <> [] ->
  exists l,
    model_1d_locals df p = Ok l /\
    elastic_modulus l = E /\ density l = rho /\ junction_length l = L /\
    gage_distance l = default 0 g.
Proof.
  intros Hp Hrho Hdf.
  apply read_parameters_Some in Hp as (mp & gp & Hmp & HE & Hd & Hgp & HL & Hg).
  unfold model_1d_locals.
  apply getitem_Ok in Hmp, HE, Hd, Hgp, HL.
  rewrite Hmp; cbn. rewrite HE; cbn. rewrite Hd; cbn.
  unfold py_truediv. destruct (decide (rho = 0)) as [|_]; [contradiction|]. cbn.
  rewrite Hgp; cbn. rewrite HL; cbn.
  destruct df as [|r df]; [contradiction|]. cbn.
  eexists. split; [reflexivity|]. cbn.
  repeat split. unfold getitem. rewrite Hg. destruct g; reflexivity.
Qed.

(* ===================================================================== *)
(** ** Sums, the kernel and the shape of the convolution *)
(* ===================================================================== *)

Lemma sum_app (a b : list R) : sum (a ++ b) = sum a + sum b.
Proof. unfold sum. induction a as [|x a IH]; cbn; [|rewrite IH]; lra. Qed.

Lemma sum_nonneg (a : list R) : Forall (fun x => 0 <= x) a -> 0 <= sum a.
Proof. unfold sum. induction 1; cbn in *; lra. Qed.

Lemma sum_pos (a : list R) : a <> [] -> Forall (fun x => 0 < x) a -> 0 < sum a.
Proof.
  intros Ha H. destruct H as [|x a Hx H]; [contradiction|].
  cbn. apply Forall_impl with (Q := fun x => 0 <= x) in H; [|intros; lra].
  apply sum_nonneg in H. unfold sum in *. lra.
Qed.

Lemma clamp_id (x : R) : x <= 0 -> clamp x = x.
Proof. unfold clamp. intros. destruct (decide (0 < x)); lra. Qed.

Lemma kernel_pos (tch : R) (time : list R) :
  0 < tch -> Forall (fun x => 0 < x) ((fun t => exp ((- t) / tch) / tch) <$> time).
Proof.
  intros Htch. apply Forall_fmap, Forall_forall. intros t _. cbn.
  apply Rdiv_lt_0_compat; [apply exp_pos | assumption].
Qed.

Lemma convolve_length (a v conv : list R) :
  convolve a v = Ok conv -> length conv = (length a + length v - 1)%nat.
Proof.
  intros H. apply convolve_Ok in H as (_ & _ & ->).
  rewrite length_fmap, length_seq. reflexivity.
Qed.

(** The first [len(v)] samples of the scaled full convolution. *)
Lemma truncated_lookup (a v conv : list R) (s : R) (i : nat) :
  convolve a v = Ok conv -> (i < length v)%nat ->
  take (length v) ((fun x => -1 * x / s) <$> conv) !! i =
  Some (-1 * convolve_at a v i / s).
Proof.
  intros H Hi. apply convolve_Ok in H as (Ha & _ & ->).
  assert (0 < length a)%nat by (destruct a; cbn; [contradiction | lia]).
  rewrite lookup_take_lt by assumption.
  rewrite !list_lookup_fmap, lookup_seq_lt by lia. reflexivity.
Qed.

Lemma truncated_length (a v conv : list R) (s : R) :
  convolve a v = Ok conv ->
  length (take (length v) ((fun x => -1 * x / s) <$> conv)) = length v.
Proof.
  intros H. pose proof (convolve_length _ _ _ H) as Hlen.
  apply convolve_Ok in H as (Ha & _ & _).
  assert (0 < length a)%nat by (destruct a; cbn; [contradiction | lia]).
  rewrite length_take, length_fmap. lia.
Qed.

(** The facts every theorem on [model_1d] starts from: for valid parameters
    and a non-empty incident table the model returns, with a positive wave
    speed and characteristic time, arrays of the incident length, and, in
    exact arithmetic, a positive kernel. *)
Lemma model_1d_locals_valid (df : DataFrame) (p : toml_table) :
  valid_parameters p -> df <> [] ->
  exists l conv,
    model_1d_locals df p = Ok l /\
    0 < c l /\ 0 < t_ch l /\
    time l = df.*1 /\
    incident l = clamp <$> df.*2 /\
    kernel l = (fun t => exp ((- t) / t_ch l) / t_ch l) <$> time l /\
    Forall (fun x => 0 < x) (kernel l) /\ 0 < sum (kernel l) /\
    convolve (kernel l) (incident l) = Ok conv /\
    length conv = (2 * length df - 1)%nat /\
    transmitted l =
      take (length (incident l)) ((fun x => -1 * x / sum (kernel l)) <$> conv) /\
    reflected l = zip_with (fun i t => - (i + t)) (incident l) (transmitted l) /\
    length (incident l) = length df /\
    length (transmitted l) = length df /\
    length (reflected l) = length df.
Proof.
  intros (E & rho & L & g & Hp & HE & Hrho & HL) Hdf.
  destruct (model_1d_locals_Ok df p E rho L g Hp) as (l & Hl & HlE & Hlrho & HlL & _);
    [lra | assumption |].
  destruct (model_1d_locals_inv df p l Hl)
    as (mp & gp & conv & _ & _ & _ & _ & Hc & _ & _ & Htch & _ & Htime & _ &
        Hinc & _ & Hker & Hconv & Htr & Hre & _).
  rewrite HlE, Hlrho in Hc. rewrite HlL in Htch.
  assert (Hc0 : 0 < c l).
  { rewrite Hc. apply sqrt_lt_R0, Rdiv_lt_0_compat; assumption. }
  assert (Ht0 : 0 < t_ch l).
  { rewrite Htch. apply Rdiv_lt_0_compat; assumption. }
  assert (Hkpos : Forall (fun x => 0 < x) (kernel l)).
  { rewrite Hker. apply kernel_pos, Ht0. }
  assert (Hlinc : length (incident l) = length df).
  { rewrite Hinc, !length_fmap. reflexivity. }
  assert (Hlker : length (kernel l) = length df).
  { rewrite Hker, Htime, !length_fmap. reflexivity. }
  assert (Hltr : length (transmitted l) = length df).
  { rewrite Htr, (truncated_length _ _ _ _ Hconv). exact Hlinc. }
  exists l, conv. repeat split; try assumption.
  - apply sum_pos; [|assumption].
    intros Hk. rewrite Hk in Hlker. destruct df; [contradiction | discriminate].
  - rewrite (convolve_length _ _ _ Hconv), Hlinc, Hlker. lia.
  - rewrite Hre, length_zip_with, Hlinc, Hltr. lia.
Qed.

(* ===================================================================== *)
(** ** Properties of the wave-splitting model *)
(* ===================================================================== *)

(** A run of the model on valid parameters and a non-empty incident table,
    the only kind signal preparation returns. *)
Section ValidRun.

Variables (df : DataFrame) (p : toml_table).
Hypothesis Hp : valid_parameters p.
Hypothesis Hdf : df <> [].


(** C4 (truncation length).  For valid parameters and every non-empty
    incident table of length [N], the full convolution of the kernel and the
    incident array has length [2N - 1], and the transmitted array is its
    first [N] samples (scaled): its length is exactly [N]. *)
Theorem transmitted_length :
  exists l conv,
    model_1d_locals df p = Ok l /\
    convolve (kernel l) (incident l) = Ok conv /\
    length conv = (2 * length df - 1)%nat /\
    transmitted l =
      take (length df) ((fun x => -1 * x / sum (kernel l)) <$> conv) /\
    length (incident l) = length df /\
    length (transmitted l) = length df.
Proof.
  destruct (model_1d_locals_valid df p Hp Hdf)
    as (l & conv & Hl & _ & _ & _ & _ & _ & _ & _ & Hconv & Hlc & Htr & _ & Hli & Hlt & _).
  exists l, conv. rewrite Hli in Htr. auto 10.
Qed.

(** C5 (sign clamp).  For valid parameters and every non-empty incident
    table, the array handed to the convolution holds, at every index, [0]
    where the incident amplitude is strictly positive and the amplitude
    itself where it is not. *)
Theorem sign_clamp :
  exists l conv,
    model_1d_locals df p = Ok l /\
    convolve (kernel l) (incident l) = Ok conv /\
    forall (i : nat) (t a : R), df !! i = Some (t, a) ->
      (0 < a -> incident l !! i = Some 0) /\
      (a <= 0 -> incident l !! i = Some a).
Proof.
  destruct (model_1d_locals_valid df p Hp Hdf)
    as (l & conv & Hl & _ & _ & _ & Hinc & _ & _ & _ & Hconv & _).
  exists l, conv. split; [exact Hl|]. split; [exact Hconv|].
  intros i t a Hi.
  assert (Hlk : incident l !! i = Some (clamp a)).
  { rewrite Hinc, !list_lookup_fmap, Hi. reflexivity. }
  rewrite Hlk. unfold clamp.
  split; intros Ha; destruct (decide (0 < a)); try reflexivity; lra.
Qed.

End ValidRun.

(* ===================================================================== *)
(** ** Properties of signal preparation *)
(* ===================================================================== *)

Lemma foldl_max_spec (l : list R) (x : R) :
  let m := foldl (fun m y => if decide (m < y) then y else m) x l in
  m ∈ x :: l /\ Forall (fun y => y <= m) (x :: l).
Proof.
  revert x. induction l as [|y l IH]; intros x; cbn.
  - split; [left | repeat constructor; lra].
  - destruct (decide (x < y)) as [Hxy|Hxy].
    + destruct (IH y) as [Hin Hall]. cbn in Hin, Hall. split.
      * right. exact Hin.
      * apply Forall_cons in Hall as [Hy Hall].
        repeat (apply Forall_cons; split); try assumption. lra.
    + destruct (IH x) as [Hin Hall]. cbn in Hin, Hall. split.
      * apply elem_of_cons in Hin as [->|Hin]; [left | right; right; exact Hin].
      * apply Forall_cons in Hall as [Hx Hall].
        repeat (apply Forall_cons; split); try assumption. lra.
Qed.

Lemma py_max_spec (l : list R) :
  l <> [] -> exists m, py_max l = Ok m /\ m ∈ l /\ Forall (fun y => y <= m) l.
Proof.
  destruct l as [|x l]; [contradiction|]. intros _.
  eexists. split; [reflexivity|]. apply foldl_max_spec.
Qed.

Lemma elem_of_dropna (rows : list (R * option R)) (t a : R) :
  (t, a) ∈ dropna rows <-> (t, Some a) ∈ rows.
Proof.
  unfold dropna. rewrite list_elem_of_omap. split.
  - intros ([t' [a'|]] & Hin & [= <- <-]). exact Hin.
  - intros Hin. exists (t, Some a). auto.
Qed.

(** What [get_incident_data] returns on a [.csv] file with at least one
    numeric record. *)
Lemma get_incident_data_Ok (file : csv_file) :
  lower (suffix file) = ".csv" -> dropna (read_csv file) <> [] ->
  exists max_signal,
    py_max ((fun r => Rabs r.2) <$> dropna (read_csv file)) = Ok max_signal /\
    max_signal ∈ (fun r => Rabs r.2) <$> dropna (read_csv file) /\
    Forall (fun y => y <= max_signal) ((fun r => Rabs r.2) <$> dropna (read_csv file)) /\
    get_incident_data file =
      Ok ((fun r => (r.1, r.2 / max_signal)) <$> dropna (read_csv file)).
Proof.
  intros Hs Hne. unfold get_incident_data.
  destruct (decide (lower (suffix file) = ".csv")) as [_|]; [|contradiction].
  destruct (py_max_spec ((fun r => Rabs r.2) <$> dropna (read_csv file)))
    as (m & Hm & Hin & Hall).
  { intros H. apply fmap_nil_inv in H. contradiction. }
  exists m. rewrite Hm. cbn. auto.
Qed.

(** The series signal preparation returns is never empty. *)
Lemma get_incident_data_nonempty (file : csv_file) (df : DataFrame) :
  get_incident_data file = Ok df -> df <> [].
Proof.
  unfold get_incident_data.
  destruct (decide (lower (suffix file) = ".csv")); [|discriminate].
  destruct (dropna (read_csv file)) as [|r rows]; cbn; [discriminate|].
  intros [= <-]. discriminate.
Qed.

(** C3 (normalization).  For every [.csv] file with at least one record of
    nonzero amplitude left after the records without an amplitude are
    dropped, signal preparation returns a series over the surviving times
    whose largest absolute amplitude is exactly [1]: one of its samples has
    absolute amplitude [1], and none has a larger one. *)
Theorem normalized_peak (file : csv_file) :
  lower (suffix file) = ".csv" ->
  (exists t a, (t, Some a) ∈ read_csv file /\ a <> 0) ->
  exists df,
    get_incident_data file = Ok df /\
    df.*1 = (dropna (read_csv file)).*1 /\
    (exists t a, (t, a) ∈ df /\ Rabs a = 1) /\
    (forall t a, (t, a) ∈ df -> Rabs a <= 1).
Proof.
  intros Hs (t & a & Hin & Ha).
  apply elem_of_dropna in Hin.
  destruct (get_incident_data_Ok file Hs) as (M & _ & HM & Hall & Hget).
  { intros H. rewrite H in Hin. inversion Hin. }
  rewrite Forall_forall in Hall.
  assert (Hle : forall t1 a1, (t1, a1) ∈ dropna (read_csv file) -> Rabs a1 <= M).
  { intros t1 a1 Hin1. apply Hall, list_elem_of_fmap. exists (t1, a1). auto. }
  assert (HM0 : 0 < M).
  { pose proof (Hle t a Hin). pose proof (Rabs_pos_lt a Ha). lra. }
  assert (Hscale : forall x, Rabs (x / M) = Rabs x / M).
  { intros x. unfold Rdiv. rewrite Rabs_mult, Rabs_inv, (Rabs_pos_eq M) by lra.
    reflexivity. }
  eexists. split; [exact Hget|]. split; [|split].
  - rewrite <- !list_fmap_compose. reflexivity.
  - apply list_elem_of_fmap in HM as ([t0 a0] & HM & Hin0). cbn in HM.
    exists t0, (a0 / M). split.
    + apply list_elem_of_fmap. exists (t0, a0). auto.
    + rewrite Hscale, <- HM. field. lra.
  - intros t1 a1 Hin1.
    apply list_elem_of_fmap in Hin1 as ([t2 a2] & [= -> ->] & Hin2). cbn.
    rewrite Hscale. pose proof (Hle t2 a2 Hin2).
    apply Rmult_le_reg_r with M; [exact HM0|]. field_simplify; lra.
Qed.

(** C9, as the code has it.  For every [.csv] file whose surviving records
    all have amplitude zero (and there is at least one), signal preparation
    raises nothing: the peak it finds is [0], and it returns a series over
    the same times, sample for sample.  (Its amplitudes are the quotients of
    zero by that peak: not-a-number values in the program, which a real
    number cannot stand for; the statement does not speak about them.) *)
Theorem all_zero_not_rejected (file : csv_file) :
  lower (suffix file) = ".csv" ->
  dropna (read_csv file) <> [] ->
  Forall (fun r => r.2 = 0) (dropna (read_csv file)) ->
  py_max ((fun r => Rabs r.2) <$> dropna (read_csv file)) = Ok 0 /\
  exists df,
    get_incident_data file = Ok df /\
    df.*1 = (dropna (read_csv file)).*1.
Proof.
  intros Hs Hne Hz.
  destruct (get_incident_data_Ok file Hs Hne) as (M & HM & Hin & _ & Hget).
  split.
  - rewrite HM. f_equal.
    apply list_elem_of_fmap in Hin as (r0 & -> & Hin0).
    rewrite Forall_forall in Hz. rewrite (Hz _ Hin0). apply Rabs_R0.
  - eexists. split; [exact Hget|].
    rewrite <- !list_fmap_compose. reflexivity.
Qed.

(* ===================================================================== *)
(** ** Rounding, the delay and the output time axis *)
(* ===================================================================== *)

Lemma pow10_pos (n : nat) : 0 < 10 ^ n.
Proof. apply pow_lt. lra. Qed.

Lemma rint_IZR (k : Z) : rint (IZR k) = k.
Proof.
  unfold rint.
  assert (Hf : Zfloor (IZR k) = k) by (apply Zfloor_eq; lra).
  rewrite Hf. destruct (decide (IZR k - IZR k < 1 / 2)); [reflexivity | lra].
Qed.

(** A time on the grid of [decimals] places is left as it is. *)
Lemma around_IZR (k : Z) (decimals : nat) :
  around (IZR k / 10 ^ decimals) decimals = IZR k / 10 ^ decimals.
Proof.
  unfold around. pose proof (pow10_pos decimals).
  replace (IZR k / 10 ^ decimals * 10 ^ decimals) with (IZR k) by (field; lra).
  rewrite rint_IZR. reflexivity.
Qed.

Lemma around_on_grid (t : R) : on_grid t -> around t 9 = t.
Proof. intros [k ->]. apply around_IZR. Qed.

(** A value with a fractional part below one half rounds down. *)
Lemma rint_down (x : R) (k : Z) : IZR k <= x < IZR k + 1 / 2 -> rint x = k.
Proof.
  intros Hx. unfold rint.
  assert (Hf : Zfloor x = k) by (apply Zfloor_eq; lra).
  rewrite Hf. destruct (decide (x - IZR k < 1 / 2)); [reflexivity | lra].
Qed.

(** A value half way between two integers rounds to the even one. *)
Lemma rint_tie (k : Z) :
  rint (IZR k + 1 / 2) = if Z.even k then k else (k + 1)%Z.
Proof.
  unfold rint.
  assert (Hf : Zfloor (IZR k + 1 / 2) = k) by (apply Zfloor_eq; lra).
  rewrite Hf. decide_reals. reflexivity.
Qed.

Example rint_example :
  rint 0.5 = 0%Z /\ rint 1.5 = 2%Z /\ rint 2.5 = 2%Z /\ rint (-1.5) = (-2)%Z /\
  rint 2.4 = 2%Z.
Proof.
  repeat split.
  - replace 0.5 with (IZR 0 + 1 / 2) by lra. apply rint_tie.
  - replace 1.5 with (IZR 1 + 1 / 2) by lra. apply rint_tie.
  - replace 2.5 with (IZR 2 + 1 / 2) by lra. apply rint_tie.
  - replace (-1.5) with (IZR (-2) + 1 / 2) by lra. apply rint_tie.
  - apply rint_down. lra.
Qed.

Example around_example : around 0.1234567894 9 = 0.123456789.
Proof.
  unfold around. rewrite (rint_down _ 123456789); lra.
Qed.

(** C7, as the code has it.  When [gage_distance] is absent or zero the
    delay is [0] and the output time axis is the incident time axis rounded
    to 9 decimal places, sample for sample; it is the incident time axis
    itself when every incident time lies on the nanosecond grid. *)
Theorem zero_gage_time_axis (df : DataFrame) (p : toml_table)
    (E rho L : R) (g : option R) :
  read_parameters p = Some (E, rho, L, g) ->
  0 < E -> 0 < rho -> 0 < L ->
  default 0 g = 0 ->
  df <> [] ->
  exists l,
    model_1d_locals df p = Ok l /\
    gage_distance l = 0 /\
    delay l = 0 /\
    time_output l = (fun t => around t 9) <$> df.*1 /\
    (Forall on_grid df.*1 -> time_output l = df.*1).
Proof.
  intros Hp HE Hrho HL Hg Hdf.
  destruct (model_1d_locals_Ok df p E rho L g Hp)
    as (l & Hl & _ & _ & _ & Hlg); [lra | assumption |].
  destruct (model_1d_locals_inv df p l Hl)
    as (mp & gp & conv & _ & _ & _ & _ & _ & _ & _ & _ & _ & Htime & _ &
        _ & Hdelay & _ & _ & _ & _ & Hout).
  rewrite Hg in Hlg. rewrite Hlg in Hdelay.
  destruct (decide (0 = 0)) as [_|]; [|contradiction].
  assert (Haxis : time_output l = (fun t => around t 9) <$> df.*1).
  { rewrite Hout, Hdelay, Htime. apply list_fmap_ext. intros i t _.
    cbn. rewrite Rplus_0_r. reflexivity. }
  exists l. repeat split; try assumption.
  intros Hgrid. rewrite Haxis.
  rewrite <- (list_fmap_id (df.*1)) at 2.
  apply Forall_fmap_ext_1. eapply Forall_impl; [exact Hgrid|].
  intros t Ht. apply around_on_grid, Ht.
Qed.

(** With the required keys present, a nonzero density and at least one
    sample, [model_1d] returns its table. *)
Lemma model_1d_Ok (df : DataFrame) (p : toml_table) (E rho L : R) (g : option R) :
  read_parameters p = Some (E, rho, L, g) -> rho <> 0 -> df <> [] ->
  exists rows, model_1d df p = Ok rows.
Proof.
  intros Hp Hrho Hdf.
  destruct (model_1d_locals_Ok df p E rho L g Hp Hrho Hdf) as (l & Hl & _).
  unfold model_1d. rewrite Hl. cbn. eauto.
Qed.

(** [main] returns a table on every [.csv] file with a numeric record,
    whatever the amplitudes, once the required parameters are present and
    the density is not zero. *)
Lemma main_Ok (file : csv_file) (p : toml_table) (E rho L : R) (g : option R) :
  lower (suffix file) = ".csv" -> dropna (read_csv file) <> [] ->
  read_parameters p = Some (E, rho, L, g) -> rho <> 0 ->
  exists rows, main file p = Ok rows.
Proof.
  intros Hs Hne Hp Hrho.
  destruct (get_incident_data_Ok file Hs Hne) as (M & _ & _ & _ & Hget).
  unfold main. rewrite Hget. cbn.
  apply (model_1d_Ok _ p E rho L g Hp Hrho).
  intros H. apply fmap_nil_inv in H. contradiction.
Qed.

(** C8, as the code has it.  [model_1d] raises [KeyError] when a required
    section or key ([elastic_modulus], [density], [junction_length]) is
    absent, before it looks at the incident table; a zero density raises
    [ZeroDivisionError]; no other value is rejected: with the three keys
    present and a nonzero density the model returns on every non-empty
    incident table, an absent [gage_distance] reading as [0]. *)
Theorem missing_parameter_errors (df : DataFrame) (p : toml_table) :
  (p !! "material_properties" = None ->
   model_1d df p = Raise (KeyError "material_properties")) /\
  (forall mp,
     p !! "material_properties" = Some mp ->
     mp !! "elastic_modulus" = None ->
     model_1d df p = Raise (KeyError "elastic_modulus")) /\
  (forall mp E,
     p !! "material_properties" = Some mp ->
     mp !! "elastic_modulus" = Some E ->
     mp !! "density" = None ->
     model_1d df p = Raise (KeyError "density")) /\
  (forall mp E,
     p !! "material_properties" = Some mp ->
     mp !! "elastic_modulus" = Some E ->
     mp !! "density" = Some 0 ->
     model_1d df p = Raise ZeroDivisionError) /\
  (forall mp E rho,
     p !! "material_properties" = Some mp ->
     mp !! "elastic_modulus" = Some E ->
     mp !! "density" = Some rho -> rho <> 0 ->
     p !! "geometric_parameters" = None ->
     model_1d df p = Raise (KeyError "geometric_parameters")) /\
  (forall mp E rho gp,
     p !! "material_properties" = Some mp ->
     mp !! "elastic_modulus" = Some E ->
     mp !! "density" = Some rho -> rho <> 0 ->
     p !! "geometric_parameters" = Some gp ->
     gp !! "junction_length" = None ->
     model_1d df p = Raise (KeyError "junction_length")) /\
  (forall E rho L g,
     read_parameters p = Some (E, rho, L, g) -> rho <> 0 -> df <> [] ->
     exists l rows,
       model_1d_locals df p = Ok l /\
       junction_length l = L /\
       gage_distance l = default 0 g /\
       model_1d df p = Ok rows).
Proof.
  repeat split; try (unfold model_1d, model_1d_locals, getitem, py_truediv).
  - intros H. rewrite H. reflexivity.
  - intros mp H1 H2. rewrite H1; cbn. rewrite H2. reflexivity.
  - intros mp E H1 H2 H3. rewrite H1; cbn. rewrite H2; cbn. rewrite H3.
    reflexivity.
  - intros mp E H1 H2 H3. rewrite H1; cbn. rewrite H2; cbn. rewrite H3; cbn.
    destruct (decide (0 = 0)); [reflexivity | contradiction].
  - intros mp E rho H1 H2 H3 Hrho H4.
    rewrite H1; cbn. rewrite H2; cbn. rewrite H3; cbn.
    destruct (decide (rho = 0)); [contradiction|]. cbn.
    rewrite H4. reflexivity.
  - intros mp E rho gp H1 H2 H3 Hrho H4 H5.
    rewrite H1; cbn. rewrite H2; cbn. rewrite H3; cbn.
    destruct (decide (rho = 0)); [contradiction|]. cbn.
    rewrite H4; cbn. rewrite H5. reflexivity.
  - intros E rho L g Hp Hrho Hdf.
    destruct (model_1d_locals_Ok df p E rho L g Hp Hrho Hdf)
      as (l & Hl & _ & _ & HL & Hg).
    destruct (model_1d_Ok df p E rho L g Hp Hrho Hdf) as (rows & Hrows).
    exists l, rows. auto.
Qed.

(* ===================================================================== *)
(** ** The response to a constant incident signal *)
(* ===================================================================== *)

Lemma sum_take_S (a : list R) (n : nat) (x : R) :
  a !! n = Some x -> sum (take (S n) a) = sum (take n a) + x.
Proof.
  intros H. rewrite (take_S_r _ _ _ H), sum_app. cbn. lra.
Qed.

Lemma sum_seq_take (a : list R) (f : nat -> R) (n : nat) :
  (n <= length a)%nat ->
  (forall m : nat, (m < n)%nat -> f m = - nth m a 0) ->
  sum (f <$> seq 0 n) = - sum (take n a).
Proof.
  induction n as [|n IH]; intros Hn Hf.
  - rewrite take_0. cbn. lra.
  - destruct (lookup_lt_is_Some_2 a n) as [x Hx]; [lia|].
    rewrite seq_S, fmap_app, sum_app, IH, (sum_take_S _ _ _ Hx);
      [| lia | intros m Hm; apply Hf; lia].
    cbn. rewrite Hf, (nth_lookup_Some _ _ _ _ Hx) by lia. lra.
Qed.

Lemma sum_take_lt (a : list R) (n m : nat) :
  Forall (fun x => 0 < x) a -> (n < m)%nat -> (m <= length a)%nat ->
  sum (take n a) < sum (take m a).
Proof.
  intros Ha. induction m as [|m IH]; intros Hnm Hm; [lia|].
  destruct (lookup_lt_is_Some_2 a m) as [x Hx]; [lia|].
  rewrite (sum_take_S _ _ _ Hx).
  assert (0 < x) by (eapply (Forall_lookup_1 _ a), Hx; exact Ha).
  destruct (decide (n = m)) as [->|]; [lra|].
  assert (sum (take n a) < sum (take m a)) by (apply IH; lia). lra.
Qed.

(** Against a signal that is [-1] up to index [i], the convolution at [i]
    is minus the sum of the first [i + 1] kernel values. *)
Lemma convolve_at_const (a v : list R) (i : nat) :
  (S i <= length a)%nat ->
  (forall j : nat, (j <= i)%nat -> v !! j = Some (-1)) ->
  convolve_at a v i = - sum (take (S i) a).
Proof.
  intros Hi Hv. unfold convolve_at. apply sum_seq_take; [exact Hi|].
  intros m Hm. rewrite (nth_lookup_Some v (i - m) 0 (-1)) by (apply Hv; lia).
  lra.
Qed.

(** For valid parameters and a constant incident signal [-1], the
    transmitted wave at index [i] is the sum of the first [i + 1] kernel
    values over the sum of them all, and the reflected wave is what is
    missing to [1]. *)
Lemma constant_incident_response (df : DataFrame) (p : toml_table) :
  valid_parameters p -> df <> [] -> Forall (fun r => r.2 = -1) df ->
  exists l,
    model_1d_locals df p = Ok l /\
    length (kernel l) = length df /\
    Forall (fun k => 0 < k) (kernel l) /\
    0 < sum (kernel l) /\
    length (transmitted l) = length df /\
    length (reflected l) = length df /\
    forall i : nat, (i < length df)%nat ->
      transmitted l !! i = Some (sum (take (S i) (kernel l)) / sum (kernel l)) /\
      reflected l !! i = Some (1 - sum (take (S i) (kernel l)) / sum (kernel l)).
Proof.
  intros Hp Hdf Hconst.
  destruct (model_1d_locals_valid df p Hp Hdf)
    as (l & conv & Hl & _ & _ & Htime & Hinc & Hker & Hk & Hs & Hconv & _ &
        Htr & Hre & Hli & Hlt & Hlr).
  assert (Hlk : length (kernel l) = length df).
  { rewrite Hker, Htime, !length_fmap. reflexivity. }
  assert (Hx : forall j : nat, (j < length df)%nat -> incident l !! j = Some (-1)).
  { intros j Hj. destruct (lookup_lt_is_Some_2 df j Hj) as [[t a] Hr].
    rewrite Hinc, !list_lookup_fmap, Hr. cbn.
    rewrite Forall_lookup in Hconst. rewrite (Hconst j (t, a) Hr : a = -1).
    rewrite clamp_id by lra. reflexivity. }
  assert (Ht : forall i : nat, (i < length df)%nat ->
            transmitted l !! i = Some (sum (take (S i) (kernel l)) / sum (kernel l))).
  { intros i Hi. rewrite Htr, (truncated_lookup _ _ _ _ _ Hconv) by lia.
    rewrite convolve_at_const; [| lia | intros j Hj; apply Hx; lia].
    f_equal. field. lra. }
  exists l. repeat split; try assumption.
  - apply Ht. assumption.
  - rewrite Hre, lookup_zip_with, Hx by assumption. cbn.
    rewrite Ht by assumption. cbn. f_equal. lra.
Qed.

(** The transmitted wave of a constant incident signal [-1] climbs from
    above [0] to exactly [1] at the last sample, and the reflected wave is
    [1 - transmitted]. *)
Lemma constant_incident_bounds (df : DataFrame) (p : toml_table) :
  valid_parameters p -> df <> [] -> Forall (fun r => r.2 = -1) df ->
  exists l,
    model_1d_locals df p = Ok l /\
    length (transmitted l) = length df /\
    length (reflected l) = length df /\
    (forall (i : nat) (t : R), transmitted l !! i = Some t ->
       0 < t <= 1 /\ reflected l !! i = Some (1 - t)) /\
    (forall (i j : nat) (ti tj : R), (i < j)%nat ->
       transmitted l !! i = Some ti -> transmitted l !! j = Some tj -> ti < tj) /\
    transmitted l !! (length df - 1)%nat = Some 1 /\
    reflected l !! (length df - 1)%nat = Some 0.
Proof.
  intros Hp Hdf Hconst.
  destruct (constant_incident_response df p Hp Hdf Hconst)
    as (l & Hl & Hlk & Hk & Hs & Hlt & Hlr & Hresp).
  assert (Hlen : (0 < length df)%nat) by (destruct df; cbn; [contradiction | lia]).
  assert (Hfull : sum (take (length df) (kernel l)) = sum (kernel l)).
  { rewrite take_ge by lia. reflexivity. }
  assert (Hidx : forall (i : nat) (t : R), transmitted l !! i = Some t ->
            (i < length df)%nat /\
            t = sum (take (S i) (kernel l)) / sum (kernel l)).
  { intros i t Ht. assert (Hi : (i < length df)%nat).
    { rewrite <- Hlt. eapply lookup_lt_Some, Ht. }
    destruct (Hresp i Hi) as [Ht' _]. rewrite Ht' in Ht. injection Ht as <-. auto. }
  exists l. split; [exact Hl|]. split; [exact Hlt|]. split; [exact Hlr|].
  split; [|split; [|split]].
  - intros i t Ht. destruct (Hidx i t Ht) as [Hi ->].
    destruct (Hresp i Hi) as [_ Hr]. split; [|exact Hr].
    assert (0 < sum (take (S i) (kernel l))).
    { pose proof (sum_take_lt (kernel l) 0 (S i) Hk) as H.
      rewrite take_0 in H. cbn in H. apply H; lia. }
    assert (sum (take (S i) (kernel l)) <= sum (kernel l)).
    { destruct (decide (S i = length df)) as [->|]; [lra|].
      rewrite <- Hfull. apply Rlt_le, sum_take_lt; [exact Hk | lia | lia]. }
    split.
    + apply Rdiv_lt_0_compat; assumption.
    + apply Rmult_le_reg_r with (sum (kernel l)); [exact Hs|].
      unfold Rdiv. rewrite Rmult_assoc, Rinv_l by lra. lra.
  - intros i j ti tj Hij Hi Hj.
    destruct (Hidx i ti Hi) as [_ ->]. destruct (Hidx j tj Hj) as [Hj' ->].
    apply Rmult_lt_compat_r; [apply Rinv_0_lt_compat, Hs|].
    apply sum_take_lt; [exact Hk | lia | lia].
  - destruct (Hresp (length df - 1)%nat) as [Ht _]; [lia|].
    rewrite Ht. replace (S (length df - 1)) with (length df) by lia.
    rewrite Hfull. f_equal. field. lra.
  - destruct (Hresp (length df - 1)%nat) as [_ Hr]; [lia|].
    rewrite Hr. replace (S (length df - 1)) with (length df) by lia.
    rewrite Hfull. f_equal. field. lra.
Qed.

Lemma exp_INR_mult (m : nat) (x : R) : exp (INR m * x) = exp x ^ m.
Proof.
  induction m as [|m IH].
  - cbn. rewrite Rmult_0_l. apply exp_0.
  - rewrite S_INR, Rmult_plus_distr_r, Rmult_1_l, exp_plus, IH. cbn. ring.
Qed.

(** The sum of the first [n] terms of a geometric kernel. *)
Lemma sum_take_geometric (ks : list R) (q tau : R) (n : nat) :
  q <> 1 -> tau <> 0 -> (n <= length ks)%nat ->
  (forall m : nat, (m < n)%nat -> ks !! m = Some (q ^ m / tau)) ->
  sum (take n ks) = (1 - q ^ n) / ((1 - q) * tau).
Proof.
  intros Hq Htau. induction n as [|n IH]; intros Hn Hks.
  - rewrite take_0. cbn. field. split; lra.
  - rewrite (sum_take_S _ _ (q ^ n / tau)) by (apply Hks; lia).
    rewrite IH by (try lia; intros m Hm; apply Hks; lia).
    cbn. field. split; lra.
Qed.

(** On a uniformly sampled constant incident signal [-1] the kernel is
    geometric with ratio [q = exp(-h / t_ch)], and the transmitted wave at
    index [i] is [(1 - q^(i+1)) / (1 - q^N)]. *)
Lemma uniform_constant_response (N : nat) (h : R) (p : toml_table) :
  valid_parameters p -> (0 < N)%nat -> 0 < h ->
  exists l q,
    model_1d_locals ((fun k => (INR k * h, -1)) <$> seq 0 N) p = Ok l /\
    q = exp ((- h) / t_ch l) /\
    0 < q < 1 /\
    forall i : nat, (i < N)%nat ->
      transmitted l !! i = Some ((1 - q ^ S i) / (1 - q ^ N)).
Proof.
  intros Hp HN Hh.
  set (df := (fun k => (INR k * h, -1)) <$> seq 0 N).
  assert (Hlen : length df = N) by (unfold df; rewrite length_fmap, length_seq; reflexivity).
  assert (Hdf : df <> []).
  { intros H. rewrite H in Hlen. cbn in Hlen. lia. }
  assert (Hconst : Forall (fun r => r.2 = -1) df).
  { unfold df. apply Forall_fmap, Forall_forall. intros k _. reflexivity. }
  destruct (constant_incident_response df p Hp Hdf Hconst)
    as (l & Hl & Hlk & _ & Hs & _ & _ & Hresp).
  destruct (model_1d_locals_valid df p Hp Hdf)
    as (l' & conv & Hl' & _ & Htch & Htime & _ & Hker & _).
  rewrite Hl in Hl'. injection Hl' as <-.
  set (q := exp ((- h) / t_ch l)).
  assert (Hq : 0 < q < 1).
  { split; [apply exp_pos|]. unfold q. rewrite <- exp_0. apply exp_increasing.
    assert (0 < h / t_ch l) by (apply Rdiv_lt_0_compat; assumption).
    unfold Rdiv in *. lra. }
  assert (Hk : forall m : nat, (m < N)%nat -> kernel l !! m = Some (q ^ m / t_ch l)).
  { intros m Hm. rewrite Hker, Htime. unfold df.
    rewrite !list_lookup_fmap, lookup_seq_lt by lia. cbn.
    do 2 f_equal. unfold q. rewrite <- exp_INR_mult. f_equal.
    unfold Rdiv. ring. }
  assert (HqN : 0 <= q ^ N < 1) by (apply pow_lt_1_compat; [lra | exact HN]).
  assert (Hsum : forall n : nat, (n <= N)%nat ->
            sum (take n (kernel l)) = (1 - q ^ n) / ((1 - q) * t_ch l)).
  { intros n Hn. apply sum_take_geometric; try lra; try lia.
    intros m Hm. apply Hk. lia. }
  exists l, q. split; [exact Hl|]. split; [reflexivity|]. split; [exact Hq|].
  intros i Hi. rewrite Hlen in Hresp. destruct (Hresp i Hi) as [-> _].
  f_equal. rewrite <- (take_ge (kernel l) N) at 2 by lia.
  rewrite !Hsum by lia. field. repeat split; lra.
Qed.

Lemma scenario_A_parameters_read :
  read_parameters scenario_A_parameters = Some (70e9, 2700, 0.5, Some 0).
Proof. reflexivity. Qed.

Lemma scenario_A_parameters_valid : valid_parameters scenario_A_parameters.
Proof.
  exists 70e9, 2700, 0.5, (Some 0). split; [reflexivity|]. lra.
Qed.

Lemma scenario_A_df_length : length scenario_A_df = 1000%nat.
Proof. unfold scenario_A_df. rewrite length_fmap, length_seq. reflexivity. Qed.

Lemma scenario_A_df_nonempty : scenario_A_df <> [].
Proof.
  intros H. apply (f_equal length) in H. rewrite scenario_A_df_length in H.
  discriminate.
Qed.

Lemma scenario_A_df_constant : Forall (fun r => r.2 = -1) scenario_A_df.
Proof.
  unfold scenario_A_df. apply Forall_fmap, Forall_forall. intros k _. reflexivity.
Qed.

(** C2, as the code has it.  In Scenario A the model returns, with
    characteristic time [t_ch = 0.5 / sqrt(70e9 / 2700)]; with
    [q = exp(-1e-6 / t_ch)], a ratio strictly between 0 and 1, the
    transmitted wave at index [i] is [(1 - q^(i+1)) / (1 - q^1000)]: it is
    positive, strictly increasing with the sample index and reaches exactly
    [+1] at the last sample (index 999); the reflected wave is
    [1 - transmitted] and reaches [0] there. *)
Theorem scenario_A_response :
  exists l q,
    model_1d_locals scenario_A_df scenario_A_parameters = Ok l /\
    length (transmitted l) = 1000%nat /\
    length (reflected l) = 1000%nat /\
    t_ch l = 0.5 / sqrt (70e9 / 2700) /\
    q = exp ((- (1e-6)) / t_ch l) /\
    0 < q < 1 /\
    (forall i : nat, (i < 1000)%nat ->
       transmitted l !! i = Some ((1 - q ^ S i) / (1 - q ^ 1000))) /\
    (forall (i : nat) (t : R), transmitted l !! i = Some t ->
       0 < t <= 1 /\ reflected l !! i = Some (1 - t)) /\
    (forall (i j : nat) (ti tj : R), (i < j)%nat ->
       transmitted l !! i = Some ti -> transmitted l !! j = Some tj -> ti < tj) /\
    transmitted l !! 999%nat = Some 1 /\
    reflected l !! 999%nat = Some 0.
Proof.
  destruct (constant_incident_bounds scenario_A_df scenario_A_parameters
              scenario_A_parameters_valid scenario_A_df_nonempty
              scenario_A_df_constant)
    as (l & Hl & Hlt & Hlr & Hb & Hm & Ht & Hr).
  rewrite scenario_A_df_length in Hlt, Hlr, Ht, Hr.
  destruct (uniform_constant_response 1000 1e-6 scenario_A_parameters
              scenario_A_parameters_valid)
    as (l' & q & Hl' & Hq & Hq01 & Hgeo); [lia | lra |].
  fold scenario_A_df in Hl'. rewrite Hl in Hl'. injection Hl' as <-.
  destruct (model_1d_locals_Ok scenario_A_df scenario_A_parameters
              70e9 2700 0.5 (Some 0) scenario_A_parameters_read)
    as (l' & Hl' & HE & Hrho & HL & _); [lra | exact scenario_A_df_nonempty |].
  rewrite Hl in Hl'. injection Hl' as <-.
  destruct (model_1d_locals_inv _ _ l Hl)
    as (_ & _ & _ & _ & _ & _ & _ & Hc & _ & _ & Htch & _).
  assert (Ht_ch : t_ch l = 0.5 / sqrt (70e9 / 2700)).
  { rewrite Htch, Hc, HE, Hrho, HL. reflexivity. }
  exists l, q. split; [exact Hl|]. split; [exact Hlt|]. split; [exact Hlr|].
  split; [exact Ht_ch|]. split; [exact Hq|]. split; [exact Hq01|].
  split; [exact Hgeo|]. split; [exact Hb|]. split; [exact Hm|].
  split; [exact Ht | exact Hr].
Qed.

(** In Scenario A no transmitted sample is within distance [1] of [-1]:
    the last one is [+1] and every one is positive. *)
Lemma scenario_A_transmitted_not_minus_one :
  exists l,
    model_1d_locals scenario_A_df scenario_A_parameters = Ok l /\
    transmitted l !! 999%nat = Some 1 /\
    (forall (i : nat) (t : R), transmitted l !! i = Some t ->
       0 < t /\ 1 < Rabs (t - -1)).
Proof.
  destruct (constant_incident_bounds scenario_A_df scenario_A_parameters
              scenario_A_parameters_valid scenario_A_df_nonempty
              scenario_A_df_constant)
    as (l & Hl & _ & _ & Hb & _ & Ht & _).
  rewrite scenario_A_df_length in Ht.
  exists l. split; [exact Hl|]. split; [exact Ht|].
  intros i t Hi. destruct (Hb i t Hi) as [[H0 _] _].
  split; [exact H0|]. rewrite Rabs_pos_eq; lra.
Qed.

(* ===================================================================== *)
(** ** The returned table *)
(* ===================================================================== *)

Lemma elem_of_insert_sorted (x y : R) (l : list R) :
  y ∈ insert_sorted x l <-> y = x \/ y ∈ l.
Proof.
  induction l as [|z l IH]; cbn.
  - rewrite list_elem_of_singleton. split; [auto | intros [?|H]; [auto | inversion H]].
  - destruct (decide (x <= z)).
    + rewrite elem_of_cons. reflexivity.
    + rewrite !elem_of_cons, IH. tauto.
Qed.

Lemma elem_of_sort (y : R) (l : list R) : y ∈ sort l <-> y ∈ l.
Proof.
  unfold sort. induction l as [|x l IH]; cbn; [reflexivity|].
  rewrite elem_of_insert_sorted, elem_of_cons, IH. reflexivity.
Qed.

Lemma merge_outer_keys (left : DataFrame) (right : list (R * (R * R))) (k : R) :
  k ∈ remove_dups (sort (left.*1 ++ right.*1)) <-> k ∈ left.*1 \/ k ∈ right.*1.
Proof. rewrite elem_of_remove_dups, elem_of_sort, elem_of_app. reflexivity. Qed.

(** The outer join loses no row of its left side ... *)
Lemma merge_outer_left (left : DataFrame) (right : list (R * (R * R))) (k a : R) :
  (k, a) ∈ left ->
  exists row, row ∈ merge_outer left right /\ Time row = k /\ Incident row = Some a.
Proof.
  intros Hin. unfold merge_outer.
  assert (Hk : k ∈ remove_dups (sort (left.*1 ++ right.*1))).
  { apply merge_outer_keys. left. apply list_elem_of_fmap. exists (k, a). auto. }
  assert (Hl : (k, a) ∈ filter (fun l : R * R => l.1 = k) left).
  { apply list_elem_of_filter. auto. }
  destruct (filter (fun l : R * R => l.1 = k) left) as [|l0 ls] eqn:Hls;
    [inversion Hl|].
  destruct (filter (fun r : R * (R * R) => r.1 = k) right) as [|r0 rs] eqn:Hrs.
  - exists (Build_row k (Some a) None None). split; [|auto].
    apply list_elem_of_bind. exists k. split; [|exact Hk].
    rewrite Hls, Hrs. apply (list_elem_of_fmap_2' _ _ (k, a)); [exact Hl | reflexivity].
  - exists (Build_row k (Some a) (Some r0.2.1) (Some r0.2.2)). split; [|auto].
    apply list_elem_of_bind. exists k. split; [|exact Hk].
    rewrite Hls, Hrs. apply list_elem_of_bind. exists (k, a). split; [|exact Hl].
    apply (list_elem_of_fmap_2' _ _ r0); [left | reflexivity].
Qed.

(** ... and no row of its right side. *)
Lemma merge_outer_right (left : DataFrame) (right : list (R * (R * R))) (k r t : R) :
  (k, (r, t)) ∈ right ->
  exists row,
    row ∈ merge_outer left right /\
    Time row = k /\ Reflected row = Some r /\ Transmitted row = Some t.
Proof.
  intros Hin. unfold merge_outer.
  assert (Hk : k ∈ remove_dups (sort (left.*1 ++ right.*1))).
  { apply merge_outer_keys. right. apply list_elem_of_fmap. exists (k, (r, t)). auto. }
  assert (Hr : (k, (r, t)) ∈ filter (fun r : R * (R * R) => r.1 = k) right).
  { apply list_elem_of_filter. auto. }
  destruct (filter (fun r : R * (R * R) => r.1 = k) right) as [|r0 rs] eqn:Hrs;
    [inversion Hr|].
  destruct (filter (fun l : R * R => l.1 = k) left) as [|l0 ls] eqn:Hls.
  - exists (Build_row k None (Some r) (Some t)). split; [|auto].
    apply list_elem_of_bind. exists k. split; [|exact Hk].
    rewrite Hls, Hrs. apply (list_elem_of_fmap_2' _ _ (k, (r, t))); [exact Hr | reflexivity].
  - exists (Build_row k (Some l0.2) (Some r) (Some t)). split; [|auto].
    apply list_elem_of_bind. exists k. split; [|exact Hk].
    rewrite Hls, Hrs. apply list_elem_of_bind. exists l0. split; [|left].
    apply (list_elem_of_fmap_2' _ _ (k, (r, t))); [exact Hr | reflexivity].
Qed.

(** Every row of the outer join sits at a key of one of its sides. *)
Lemma merge_outer_time (left : DataFrame) (right : list (R * (R * R))) (row : row) :
  row ∈ merge_outer left right -> Time row ∈ left.*1 \/ Time row ∈ right.*1.
Proof.
  unfold merge_outer. intros H.
  apply list_elem_of_bind in H as (k & H & Hk).
  apply merge_outer_keys in Hk.
  assert (Time row = k) as ->; [|exact Hk].
  destruct (filter (fun l : R * R => l.1 = k) left) as [|l0 ls];
    destruct (filter (fun r : R * (R * R) => r.1 = k) right) as [|r0 rs].
  - inversion H.
  - apply list_elem_of_fmap in H as (r & -> & _). reflexivity.
  - apply list_elem_of_fmap in H as (l & -> & _). reflexivity.
  - apply list_elem_of_bind in H as (l & H & _).
    apply list_elem_of_fmap in H as (r & -> & _). reflexivity.
Qed.

(** X1 (the returned table).  For valid parameters and a non-empty incident
    table, [model_1d] returns a table in which every incident sample has a
    row at its time carrying its amplitude, every index [i] has a row at
    [time_output[i]] carrying [reflected[i]] and [transmitted[i]], and every
    row sits at an incident time or an output time. *)
Theorem model_1d_table (df : DataFrame) (p : toml_table) :
  valid_parameters p -> df <> [] ->
  exists l rows,
    model_1d_locals df p = Ok l /\
    model_1d df p = Ok rows /\
    (forall (i : nat) (t a : R), df !! i = Some (t, a) ->
       exists row, row ∈ rows /\ Time row = t /\ Incident row = Some a) /\
    (forall (i : nat) (u r x : R),
       time_output l !! i = Some u ->
       reflected l !! i = Some r ->
       transmitted l !! i = Some x ->
       exists row,
         row ∈ rows /\ Time row = u /\
         Reflected row = Some r /\ Transmitted row = Some x) /\
    (forall row, row ∈ rows -> Time row ∈ df.*1 \/ Time row ∈ time_output l).
Proof.
  intros Hp Hdf.
  destruct (model_1d_locals_valid df p Hp Hdf)
    as (l & conv & Hl & _ & _ & Htime & _ & _ & _ & _ & _ & _ & _ & _ & _ & Hlt & Hlr).
  destruct (model_1d_locals_inv df p l Hl)
    as (_ & _ & _ & _ & _ & _ & _ & _ & _ & _ & _ & _ & _ & _ &
        _ & _ & _ & _ & _ & _ & Hout).
  assert (Hlo : length (time_output l) = length df).
  { rewrite Hout, Htime, !length_fmap. reflexivity. }
  exists l, (merge_outer df (zip (time_output l) (zip (reflected l) (transmitted l)))).
  split; [exact Hl|]. split; [unfold model_1d; rewrite Hl; reflexivity|].
  split; [|split].
  - intros i t a Hi. apply merge_outer_left.
    eapply list_elem_of_lookup_2, Hi.
  - intros i u r x Hu Hr Hx. apply merge_outer_right.
    apply list_elem_of_lookup. exists i.
    apply lookup_zip_with_Some. exists u, (r, x). repeat split; [exact Hu|].
    apply lookup_zip_with_Some. exists r, x. auto.
  - intros row Hrow. apply merge_outer_time in Hrow as [H|H]; [left; exact H|].
    right. rewrite fst_zip in H; [exact H|].
    rewrite length_zip, Hlo, Hlt, Hlr. lia.
Qed.

(* ===================================================================== *)
(** ** The properties on concrete inputs *)
(* ===================================================================== *)

Lemma pulse_df_nonempty : pulse_df <> [].
Proof. discriminate. Qed.

Lemma gage_parameters_read :
  read_parameters gage_parameters = Some (70e9, 2700, 0.5, Some 0.1).
Proof. reflexivity. Qed.

Lemma negative_length_parameters_read :
  read_parameters negative_length_parameters = Some (70e9, 2700, -0.5, None).
Proof. reflexivity. Qed.

Lemma pulse_file_suffix : lower (suffix pulse_file) = ".csv".
Proof. reflexivity. Qed.

Lemma pulse_file_nondegenerate :
  exists t a, (t, Some a) ∈ read_csv pulse_file /\ a <> 0.
Proof.
  exists 2e-6, (-5). split; [|lra].
  cbn. do 2 right. left.
Qed.

Lemma zero_file_dropna : dropna (read_csv zero_file) = [(0, 0); (1e-6, 0)].
Proof. reflexivity. Qed.

Lemma zero_file_all_zero : Forall (fun r => r.2 = 0) (dropna (read_csv zero_file)).
Proof. rewrite zero_file_dropna. repeat constructor. Qed.

(** Signal preparation on the pulse file: the record without an amplitude
    is dropped and the others are divided by the peak, 5. *)
Example get_incident_data_example :
  get_incident_data pulse_file = Ok [(0, 1 / 5); (2e-6, -5 / 5); (3e-6, -2.5 / 5)].
Proof.
  destruct (get_incident_data_Ok pulse_file pulse_file_suffix) as (M & HM & _ & _ & ->).
  { discriminate. }
  assert (M = 5) as ->; [|reflexivity].
  rewrite dropna_example in HM. unfold py_max in HM. cbn [fmap list_fmap snd foldl] in HM.
  rewrite (Rabs_pos_eq 1), (Rabs_left (-5)), (Rabs_left (-2.5)) in HM by lra.
  revert HM. decide_reals. intros [= <-]. lra.
Qed.

Lemma around_quarter_nanosecond : around 2.5e-10 9 = 0.
Proof.
  unfold around. rewrite (rint_down _ 0); lra.
Qed.

Lemma around_zero : around 0 9 = 0.
Proof.
  replace 0 with (IZR 0 / 10 ^ 9) at 1 by lra. rewrite around_IZR. lra.
Qed.


(** [transmitted_length] on the pulse table: three samples in, a
    convolution of five, three transmitted samples out. *)
Lemma transmitted_length_pulse :
  exists l conv,
    model_1d_locals pulse_df scenario_A_parameters = Ok l /\
    convolve (kernel l) (incident l) = Ok conv /\
    length conv = 5%nat /\
    transmitted l =
      take 3 ((fun x => -1 * x / sum (kernel l)) <$> conv) /\
    length (incident l) = 3%nat /\
    length (transmitted l) = 3%nat.
Proof.
  exact (transmitted_length pulse_df scenario_A_parameters
           scenario_A_parameters_valid pulse_df_nonempty).
Defined.

(** [sign_clamp] on the pulse table, whose first amplitude is positive. *)
Lemma sign_clamp_pulse :
  exists l conv,
    model_1d_locals pulse_df scenario_A_parameters = Ok l /\
    convolve (kernel l) (incident l) = Ok conv /\
    forall (i : nat) (t a : R), pulse_df !! i = Some (t, a) ->
      (0 < a -> incident l !! i = Some 0) /\
      (a <= 0 -> incident l !! i = Some a).
Proof.
  exact (sign_clamp pulse_df scenario_A_parameters
           scenario_A_parameters_valid pulse_df_nonempty).
Defined.

(** [normalized_peak] on the pulse file: the record without an amplitude is
    dropped and the peak of the prepared series is [1]. *)
Lemma normalized_peak_pulse :
  exists df,
    get_incident_data pulse_file = Ok df /\
    df.*1 = [0; 2e-6; 3e-6] /\
    (exists t a, (t, a) ∈ df /\ Rabs a = 1) /\
    (forall t a, (t, a) ∈ df -> Rabs a <= 1).
Proof.
  exact (normalized_peak pulse_file pulse_file_suffix pulse_file_nondegenerate).
Defined.

(** [zero_gage_time_axis] on the pulse table with the Scenario A
    parameters, whose [gage_distance] is [0]. *)
Lemma zero_gage_time_axis_pulse :
  exists l,
    model_1d_locals pulse_df scenario_A_parameters = Ok l /\
    gage_distance l = 0 /\
    delay l = 0 /\
    time_output l = (fun t => around t 9) <$> pulse_df.*1 /\
    (Forall on_grid pulse_df.*1 -> time_output l = pulse_df.*1).
Proof.
  refine (zero_gage_time_axis pulse_df scenario_A_parameters 70e9 2700 0.5 (Some 0)
            scenario_A_parameters_read _ _ _ eq_refl pulse_df_nonempty);
    lra.
Defined.

(** With a zero [gage_distance] and two samples a quarter of a nanosecond
    apart, the output time axis is not the incident time axis: both output
    times are [0]. *)
Lemma zero_gage_time_axis_shifted :
  exists l,
    model_1d_locals subnanosecond_df scenario_A_parameters = Ok l /\
    gage_distance l = 0 /\
    delay l = 0 /\
    time l = [0; 2.5e-10] /\
    time_output l = [0; 0] /\
    time_output l <> time l.
Proof.
  destruct (model_1d_locals_Ok subnanosecond_df scenario_A_parameters
              70e9 2700 0.5 (Some 0) scenario_A_parameters_read)
    as (l & Hl & _ & _ & _ & Hg); [lra | discriminate |].
  destruct (model_1d_locals_inv _ _ l Hl)
    as (mp & gp & conv & _ & _ & _ & _ & _ & _ & _ & _ & _ & Htime & _ &
        _ & Hdelay & _ & _ & _ & _ & Hout).
  cbn in Hg. change (subnanosecond_df.*1) with [0; 2.5e-10] in Htime.
  rewrite Hg in Hdelay.
  destruct (decide (0 = 0)) as [_|]; [|contradiction].
  assert (Ho : time_output l = [0; 0]).
  { rewrite Hout, Hdelay, Htime. cbn [fmap list_fmap].
    rewrite !Rplus_0_r, around_zero, around_quarter_nanosecond. reflexivity. }
  exists l. repeat split; try assumption.
  rewrite Ho, Htime. intros [= H]. lra.
Qed.

(** A negative [junction_length] is not rejected: the model returns its
    table. *)
Lemma negative_length_accepted :
  read_parameters negative_length_parameters = Some (70e9, 2700, -0.5, None) /\
  -0.5 <= 0 /\
  exists rows, model_1d pulse_df negative_length_parameters = Ok rows.
Proof.
  split; [reflexivity|]. split; [lra|].
  apply (model_1d_Ok pulse_df negative_length_parameters 70e9 2700 (-0.5) None
           negative_length_parameters_read); [lra | discriminate].
Qed.

(** [all_zero_not_rejected] on the all-zero file of Scenario B. *)
Lemma all_zero_not_rejected_scenario_B :
  py_max ((fun r => Rabs r.2) <$> dropna (read_csv zero_file)) = Ok 0 /\
  exists df,
    get_incident_data zero_file = Ok df /\
    df.*1 = (dropna (read_csv zero_file)).*1.
Proof.
  refine (all_zero_not_rejected zero_file eq_refl _ zero_file_all_zero).
  rewrite zero_file_dropna. discriminate.
Defined.

(** Scenario B raises nothing: signal preparation returns a series over
    the two times of the file. *)
Lemma scenario_B_returns :
  exists df,
    get_incident_data zero_file = Ok df /\ df.*1 = [0; 1e-6].
Proof.
  destruct (get_incident_data_Ok zero_file eq_refl) as (M & _ & _ & _ & H).
  { rewrite zero_file_dropna. discriminate. }
  eexists. split; [exact H|]. reflexivity.
Qed.

(** Scenario C: without [density] the model raises [KeyError] on every
    incident table, the empty one included. *)
Lemma scenario_C_raises (df : DataFrame) :
  model_1d df no_density_parameters = Raise (KeyError "density").
Proof. reflexivity. Qed.

Lemma density_nonzero : 2700 <> 0.
Proof. lra. Qed.

(** [missing_parameter_errors] on Scenario C with an empty incident table,
    and on the table with a negative junction length and no
    [gage_distance]. *)
Lemma missing_parameter_errors_scenario_C :
  model_1d [] no_density_parameters = Raise (KeyError "density") /\
  exists l rows,
    model_1d_locals pulse_df negative_length_parameters = Ok l /\
    junction_length l = -0.5 /\
    gage_distance l = 0 /\
    model_1d pulse_df negative_length_parameters = Ok rows.
Proof.
  split.
  - exact (proj1 (proj2 (proj2 (missing_parameter_errors [] no_density_parameters)))
             {[ "elastic_modulus" := 70e9 ]} 70e9 eq_refl eq_refl eq_refl).
  - exact (proj2 (proj2 (proj2 (proj2 (proj2 (proj2
             (missing_parameter_errors pulse_df negative_length_parameters))))))
             70e9 2700 (-0.5) None negative_length_parameters_read
             density_nonzero pulse_df_nonempty).
Defined.

(** [model_1d_table] on the pulse table. *)
Lemma model_1d_table_pulse :
  exists l rows,
    model_1d_locals pulse_df scenario_A_parameters = Ok l /\
    model_1d pulse_df scenario_A_parameters = Ok rows /\
    (forall (i : nat) (t a : R), pulse_df !! i = Some (t, a) ->
       exists row, row ∈ rows /\ Time row = t /\ Incident row = Some a) /\
    (forall (i : nat) (u r x : R),
       time_output l !! i = Some u ->
       reflected l !! i = Some r ->
       transmitted l !! i = Some x ->
       exists row,
         row ∈ rows /\ Time row = u /\
         Reflected row = Some r /\ Transmitted row = Some x) /\
    (forall row, row ∈ rows -> Time row ∈ pulse_df.*1 \/ Time row ∈ time_output l).
Proof.
  exact (model_1d_table pulse_df scenario_A_parameters
           scenario_A_parameters_valid pulse_df_nonempty).
Defined.

(* ===================================================================== *)
(** ** Signal preparation: outcome, shape and scale *)
(* ===================================================================== *)

(** X2 (outcome of signal preparation).  [get_incident_data] checks the
    extension first, without regard to case, and raises [ValueError] on
    any other than [.csv]; on a [.csv] file without a single record that
    has an amplitude it raises the [ValueError] of [max] on an empty list;
    in every other case it returns one sample for every record that has an
    amplitude. *)
Theorem get_incident_data_outcome (file : csv_file) :
  (lower (suffix file) <> ".csv" ->
   get_incident_data file = Raise (ValueError "Extension must be .csv")) /\
  (lower (suffix file) = ".csv" -> dropna (read_csv file) = [] ->
   get_incident_data file = Raise (ValueError "max() arg is an empty sequence")) /\
  (lower (suffix file) = ".csv" -> dropna (read_csv file) <> [] ->
   exists df, get_incident_data file = Ok df) /\
  (forall df, get_incident_data file = Ok df ->
     lower (suffix file) = ".csv" /\
     df <> [] /\
     length df = length (dropna (read_csv file)) /\
     df.*1 = (dropna (read_csv file)).*1).
Proof.
  unfold get_incident_data. repeat split.
  - intros Hs. destruct (decide (lower (suffix file) = ".csv")); [contradiction|].
    reflexivity.
  - intros Hs He. destruct (decide (lower (suffix file) = ".csv")); [|contradiction].
    rewrite He. reflexivity.
  - intros Hs Hne. destruct (get_incident_data_Ok file Hs Hne) as (M & _ & _ & _ & H).
    unfold get_incident_data in H. eauto.
  - destruct (decide (lower (suffix file) = ".csv")); [assumption | discriminate].
  - fold (get_incident_data file) in H. eapply get_incident_data_nonempty, H.
  - destruct (decide (lower (suffix file) = ".csv")); [|discriminate].
    apply bind_Ok_inv in H as (M & _ & [= <-]). rewrite length_fmap. reflexivity.
  - destruct (decide (lower (suffix file) = ".csv")); [|discriminate].
    apply bind_Ok_inv in H as (M & _ & [= <-]).
    rewrite <- list_fmap_compose. reflexivity.
Qed.

(** The peak found by signal preparation, when one amplitude is nonzero. *)
Lemma get_incident_data_peak (file : csv_file) :
  lower (suffix file) = ".csv" ->
  (exists t a, (t, Some a) ∈ read_csv file /\ a <> 0) ->
  exists M,
    0 < M /\
    (exists r, r ∈ dropna (read_csv file) /\ Rabs r.2 = M) /\
    (forall r, r ∈ dropna (read_csv file) -> Rabs r.2 <= M) /\
    get_incident_data file =
      Ok ((fun r => (r.1, r.2 / M)) <$> dropna (read_csv file)).
Proof.
  intros Hs (t & a & Hin & Ha).
  apply elem_of_dropna in Hin.
  destruct (get_incident_data_Ok file Hs) as (M & _ & HM & Hall & Hget).
  { intros H. rewrite H in Hin. inversion Hin. }
  rewrite Forall_fmap, Forall_forall in Hall.
  exists M. split; [|split; [|split]].
  - pose proof (Hall _ Hin) as H. cbn in H. pose proof (Rabs_pos_lt a Ha). lra.
  - apply list_elem_of_fmap in HM as (r & -> & Hr). eauto.
  - intros r Hr. apply (Hall r Hr).
  - exact Hget.
Qed.


Lemma dropna_scale (k : R) (rows : list (R * option R)) :
  dropna ((fun r : R * option R => (r.1, Rmult k <$> r.2)) <$> rows) =
  (fun r : R * R => (r.1, k * r.2)) <$> dropna rows.
Proof.
  unfold dropna. induction rows as [|[t [a|]] rows IH]; cbn; [reflexivity | |].
  - f_equal. exact IH.
  - exact IH.
Qed.

Lemma dropna_Some (df : DataFrame) :
  dropna ((fun r : R * R => (r.1, Some r.2)) <$> df) = df.
Proof.
  unfold dropna. induction df as [|[t a] df IH]; cbn; [reflexivity|].
  f_equal. exact IH.
Qed.

(** X4 (the scale of the raw signal does not matter).  Two [.csv] files
    with the same records, the amplitudes of the second being those of the
    first multiplied by one positive factor, are prepared into the same
    series, so that [main] returns the same on both, whatever the
    parameters. *)
Theorem get_incident_data_scale (file file' : csv_file) (k : R) :
  0 < k ->
  lower (suffix file) = ".csv" ->
  lower (suffix file') = ".csv" ->
  read_csv file' = (fun r : R * option R => (r.1, Rmult k <$> r.2)) <$> read_csv file ->
  (exists t a, (t, Some a) ∈ read_csv file /\ a <> 0) ->
  exists df,
    get_incident_data file = Ok df /\
    get_incident_data file' = Ok df /\
    forall p : toml_table, main file' p = main file p.
Proof.
  intros Hk Hs Hs' Hrows Hnd.
  destruct (get_incident_data_peak file Hs Hnd) as (M & HM & (r0 & Hr0 & HM0) & Hall & Hget).
  assert (Hdrop : dropna (read_csv file') =
                  (fun r : R * R => (r.1, k * r.2)) <$> dropna (read_csv file)).
  { rewrite Hrows. apply dropna_scale. }
  assert (Hnd' : exists t a, (t, Some a) ∈ read_csv file' /\ a <> 0).
  { destruct Hnd as (t & a & Hin & Ha). exists t, (k * a). split; [|nra].
    rewrite Hrows. apply list_elem_of_fmap. exists (t, Some a). auto. }
  destruct (get_incident_data_peak file' Hs' Hnd')
    as (M' & HM' & (r1 & Hr1 & HM1) & Hall' & Hget').
  rewrite Hdrop in Hr1, Hall', Hget'.
  assert (HMM : M' = k * M).
  { apply Rle_antisym.
    - apply list_elem_of_fmap in Hr1 as (r & -> & Hr). cbn in HM1.
      rewrite Rabs_mult, (Rabs_pos_eq k) in HM1 by lra.
      pose proof (Hall r Hr). nra.
    - assert (H : Rabs (k * r0.2) <= M').
      { apply (Hall' (r0.1, k * r0.2)), list_elem_of_fmap. exists r0. auto. }
      rewrite Rabs_mult, (Rabs_pos_eq k), HM0 in H by lra. exact H. }
  assert (Heq : get_incident_data file' = get_incident_data file).
  { rewrite Hget, Hget'. f_equal. rewrite <- list_fmap_compose.
    apply list_fmap_ext. intros i [t a] _. cbn. f_equal. rewrite HMM. field. lra. }
  eexists. split; [exact Hget|]. split; [rewrite Heq; exact Hget|].
  intros p. unfold main. rewrite Heq. reflexivity.
Qed.

(** X5 (preparing twice changes nothing).  The series prepared from a
    [.csv] file with a nonzero amplitude, stored with all its amplitudes in
    another [.csv] file, is prepared into itself. *)
Theorem get_incident_data_idempotent (file file' : csv_file) (df : DataFrame) :
  get_incident_data file = Ok df ->
  (exists t a, (t, Some a) ∈ read_csv file /\ a <> 0) ->
  lower (suffix file') = ".csv" ->
  read_csv file' = (fun r : R * R => (r.1, Some r.2)) <$> df ->
  get_incident_data file' = Ok df.
Proof.
  intros Hdf Hnd Hs' Hrows.
  assert (Hs : lower (suffix file) = ".csv").
  { unfold get_incident_data in Hdf.
    destruct (decide (lower (suffix file) = ".csv")); [assumption | discriminate]. }
  destruct (get_incident_data_peak file Hs Hnd) as (M & HM & (r0 & Hr0 & HM0) & Hall & Hget).
  rewrite Hget in Hdf. injection Hdf as Hdf.
  assert (Hone : exists r, r ∈ df /\ Rabs r.2 = 1).
  { exists (r0.1, r0.2 / M). split.
    - rewrite <- Hdf. apply list_elem_of_fmap. exists r0. auto.
    - cbn. unfold Rdiv. rewrite Rabs_mult, Rabs_inv, HM0, (Rabs_pos_eq M) by lra.
      field. lra. }
  assert (Hle : forall r, r ∈ df -> Rabs r.2 <= 1).
  { intros r Hr. rewrite <- Hdf in Hr.
    apply list_elem_of_fmap in Hr as (r' & -> & Hr'). cbn.
    pose proof (Hall r' Hr') as H.
    unfold Rdiv. rewrite Rabs_mult, Rabs_inv, (Rabs_pos_eq M) by lra.
    apply Rmult_le_reg_r with M; [exact HM|].
    rewrite Rmult_assoc, Rinv_l by lra. lra. }
  assert (Hnd' : exists t a, (t, Some a) ∈ read_csv file' /\ a <> 0).
  { destruct Hone as ([t a] & Hr & Ha). cbn in Ha. exists t, a. split.
    - rewrite Hrows. apply list_elem_of_fmap. exists (t, a). auto.
    - intros ->. rewrite Rabs_R0 in Ha. lra. }
  destruct (get_incident_data_peak file' Hs' Hnd')
    as (M' & HM' & (r1 & Hr1 & HM1) & Hall' & Hget').
  rewrite Hrows, dropna_Some in Hr1, Hall', Hget'.
  assert (M' = 1) as ->.
  { apply Rle_antisym.
    - rewrite <- HM1. apply Hle, Hr1.
    - destruct Hone as (r & Hr & <-). apply Hall', Hr. }
  rewrite Hget'. f_equal. rewrite <- (list_fmap_id df) at 2.
  apply list_fmap_ext. intros i [t a] _. cbn. f_equal. field.
Qed.

(* ===================================================================== *)
(** ** The outcome of model_1d and of main *)
(* ===================================================================== *)

Lemma get_incident_data_Ok_inv (file : csv_file) (df : DataFrame) :
  get_incident_data file = Ok df ->
  lower (suffix file) = ".csv" /\ dropna (read_csv file) <> [].
Proof.
  unfold get_incident_data.
  destruct (decide (lower (suffix file) = ".csv")); [|discriminate].
  destruct (dropna (read_csv file)); cbn; [discriminate|].
  intros _. split; [assumption | discriminate].
Qed.

Lemma model_1d_Ok_inv (df : DataFrame) (p : toml_table) (rows : list row) :
  model_1d df p = Ok rows ->
  (exists E rho L g, read_parameters p = Some (E, rho, L, g) /\ rho <> 0) /\
  df <> [].
Proof.
  unfold model_1d. intros H. apply bind_Ok_inv in H as (l & Hl & _).
  destruct (model_1d_locals_inv df p l Hl)
    as (mp & gp & conv & Hmp & HE & Hrho & Hrho0 & _ & Hgp & HL & _ & _ & Htime & _ &
        _ & _ & Hker & Hconv & _).
  split.
  - exists (elastic_modulus l), (density l), (junction_length l), (gp !! "gage_distance").
    split; [|exact Hrho0]. apply read_parameters_Some. exists mp, gp. auto 10.
  - apply convolve_Ok in Hconv as (Hk & _ & _). intros ->.
    rewrite Hker, Htime in Hk. contradiction.
Qed.

Lemma model_1d_empty (p : toml_table) (E rho L : R) (g : option R) :
  read_parameters p = Some (E, rho, L, g) -> rho <> 0 ->
  model_1d [] p = Raise (ValueError "a cannot be empty").
Proof.
  intros Hp Hrho.
  apply read_parameters_Some in Hp as (mp & gp & Hmp & HE & Hd & Hgp & HL & Hg).
  unfold model_1d, model_1d_locals, getitem, py_truediv.
  rewrite Hmp; cbn. rewrite HE; cbn. rewrite Hd; cbn.
  destruct (decide (rho = 0)); [contradiction|]. cbn.
  rewrite Hgp; cbn. rewrite HL; cbn. reflexivity.
Qed.

(** The exceptions of [model_1d]. *)
Lemma model_1d_Raise_inv (df : DataFrame) (p : toml_table) (e : exn) :
  model_1d df p = Raise e ->
  e = ZeroDivisionError \/
  (e = ValueError "a cannot be empty" /\ df = []) \/
  exists k, e = KeyError k /\
    k ∈ ["material_properties"; "elastic_modulus"; "density";
         "geometric_parameters"; "junction_length"].
Proof.
  unfold model_1d, model_1d_locals, getitem, py_truediv.
  destruct (p !! "material_properties") as [mp|]; cbn;
    [|intros [= <-]; right; right; eexists; split; [reflexivity | set_solver]].
  destruct (mp !! "elastic_modulus") as [E|]; cbn;
    [|intros [= <-]; right; right; eexists; split; [reflexivity | set_solver]].
  destruct (mp !! "density") as [rho|]; cbn;
    [|intros [= <-]; right; right; eexists; split; [reflexivity | set_solver]].
  destruct (decide (rho = 0)); cbn; [intros [= <-]; left; reflexivity|].
  destruct (p !! "geometric_parameters") as [gp|]; cbn;
    [|intros [= <-]; right; right; eexists; split; [reflexivity | set_solver]].
  destruct (gp !! "junction_length") as [L|]; cbn;
    [|intros [= <-]; right; right; eexists; split; [reflexivity | set_solver]].
  destruct df as [|r df]; cbn; [|discriminate].
  intros [= <-]. right. left. auto.
Qed.

(** X6 (outcome of the model).  [model_1d] returns a table exactly when
    the three required parameters are present, the density is not zero and
    the incident table is not empty.  With such parameters an empty
    incident table raises the [ValueError] of [np.convolve]; every other
    exception is the [KeyError] of an absent section or key, or
    [ZeroDivisionError]. *)
Theorem model_1d_outcome (df : DataFrame) (p : toml_table) :
  ((exists rows, model_1d df p = Ok rows) <->
   (exists E rho L g, read_parameters p = Some (E, rho, L, g) /\ rho <> 0) /\
   df <> []) /\
  ((exists E rho L g, read_parameters p = Some (E, rho, L, g) /\ rho <> 0) ->
   df = [] -> model_1d df p = Raise (ValueError "a cannot be empty")) /\
  (forall e, model_1d df p = Raise e ->
     e = ZeroDivisionError \/
     (e = ValueError "a cannot be empty" /\ df = []) \/
     exists k, e = KeyError k /\
       k ∈ ["material_properties"; "elastic_modulus"; "density";
            "geometric_parameters"; "junction_length"]).
Proof.
  split; [split|split].
  - intros [rows H]. eapply model_1d_Ok_inv, H.
  - intros [(E & rho & L & g & Hp & Hrho) Hdf].
    apply (model_1d_Ok df p E rho L g Hp Hrho Hdf).
  - intros (E & rho & L & g & Hp & Hrho) ->.
    apply (model_1d_empty p E rho L g Hp Hrho).
  - apply model_1d_Raise_inv.
Qed.

(** X7 (outcome of the whole run).  [main] returns a table exactly when
    the incident file is a [.csv] file with at least one record that has an
    amplitude, the three required parameters are present and the density is
    not zero.  A wrong extension is reported whatever the parameters are,
    and the [ValueError] of [np.convolve] on an empty array is never
    raised: signal preparation does not hand an empty table on. *)
Theorem main_outcome (file : csv_file) (p : toml_table) :
  ((exists rows, main file p = Ok rows) <->
   lower (suffix file) = ".csv" /\
   dropna (read_csv file) <> [] /\
   exists E rho L g, read_parameters p = Some (E, rho, L, g) /\ rho <> 0) /\
  (lower (suffix file) <> ".csv" ->
   main file p = Raise (ValueError "Extension must be .csv")) /\
  (forall e, main file p = Raise e -> e <> ValueError "a cannot be empty").
Proof.
  split; [split|split].
  - intros [rows H]. unfold main in H.
    apply bind_Ok_inv in H as (df & Hdf & H).
    destruct (get_incident_data_Ok_inv file df Hdf) as (Hs & Hne).
    destruct (model_1d_Ok_inv df p rows H) as [Hp _].
    split; [exact Hs|]. split; [exact Hne | exact Hp].
  - intros (Hs & Hne & E & rho & L & g & Hp & Hrho).
    apply (main_Ok file p E rho L g Hs Hne Hp Hrho).
  - intros Hs. unfold main, get_incident_data.
    destruct (decide (lower (suffix file) = ".csv")); [contradiction | reflexivity].
  - intros e H. unfold main in H.
    destruct (get_incident_data file) as [df|e'] eqn:Hdf; cbn in H.
    + apply model_1d_Raise_inv in H as [->|[[-> Hnil]|(k & -> & _)]]; try discriminate.
      apply get_incident_data_nonempty in Hdf. contradiction.
    + injection H as <-. unfold get_incident_data in Hdf.
      destruct (decide (lower (suffix file) = ".csv")); [|injection Hdf as <-; discriminate].
      destruct (dropna (read_csv file)); cbn in Hdf; [|discriminate].
      injection Hdf as <-. discriminate.
Qed.

(* ===================================================================== *)
(** ** The model as a transform of the incident signal *)
(* ===================================================================== *)

(** A run on valid parameters and a non-empty table, every local variable
    written out in terms of the inputs. *)
Lemma model_1d_run (df : DataFrame) (p : toml_table) (E rho L : R) (g : option R) :
  read_parameters p = Some (E, rho, L, g) ->
  0 < E -> 0 < rho -> 0 < L -> df <> [] ->
  exists l,
    model_1d_locals df p = Ok l /\
    c l = sqrt (E / rho) /\ 0 < c l /\
    t_ch l = L / sqrt (E / rho) /\ 0 < t_ch l /\
    gage_distance l = default 0 g /\
    time l = df.*1 /\
    dt l = around (median (diff df.*1)) 9 /\
    incident l = clamp <$> df.*2 /\
    delay l =
      (if decide (default 0 g = 0) then 0
       else floor_divide (around ((2 * default 0 g + L) / c l) 9 * 1e9)
                         (dt l * 1e9) * dt l) /\
    kernel l = (fun t => exp ((- t) / t_ch l) / t_ch l) <$> df.*1 /\
    Forall (fun k => 0 < k) (kernel l) /\
    0 < sum (kernel l) /\
    transmitted l =
      (fun i => -1 * convolve_at (kernel l) (incident l) i / sum (kernel l))
        <$> seq 0 (length df) /\
    reflected l = zip_with (fun i t => - (i + t)) (incident l) (transmitted l) /\
    time_output l = (fun t => around (t + delay l) 9) <$> df.*1.
Proof.
  intros Hp HE Hrho HL Hdf.
  assert (Hv : valid_parameters p) by (exists E, rho, L, g; auto).
  destruct (model_1d_locals_valid df p Hv Hdf)
    as (l & conv & Hl & Hc0 & Ht0 & Htime & Hinc & Hker & Hk & Hs & Hconv & _ &
        Htr & Hre & Hli & Hlt & _).
  destruct (model_1d_locals_Ok df p E rho L g Hp) as (l' & Hl' & HlE & Hlrho & HlL & Hlg);
    [lra | assumption |].
  rewrite Hl in Hl'. injection Hl' as <-.
  destruct (model_1d_locals_inv df p l Hl)
    as (_ & _ & _ & _ & _ & _ & _ & Hc & _ & _ & Htch & _ & _ & Hdt &
        _ & Hdelay & _ & _ & _ & _ & Hout).
  rewrite HlE, Hlrho in Hc. rewrite HlL, Hc in Htch.
  rewrite Htime in Hdt, Hout, Hker. rewrite Hlg, HlL in Hdelay.
  exists l. repeat split; try assumption.
  apply list_eq. intros i.
  destruct (decide (i < length df)%nat) as [Hi|Hi].
  - rewrite Htr, (truncated_lookup _ _ _ _ _ Hconv) by lia.
    rewrite list_lookup_fmap, lookup_seq_lt by lia. reflexivity.
  - rewrite (lookup_ge_None_2 (transmitted l)) by lia.
    rewrite list_lookup_fmap, lookup_seq_ge by lia. reflexivity.
Qed.

Lemma sum_fmap_scale (e : R) (a : list R) : sum (Rmult e <$> a) = e * sum a.
Proof. unfold sum. induction a as [|x a IH]; cbn; [|rewrite IH]; lra. Qed.

Lemma sum_fmap_ext {A : Type} (f g : A -> R) (l : list A) :
  (forall x, x ∈ l -> f x = g x) -> sum (f <$> l) = sum (g <$> l).
Proof.
  intros H. f_equal. apply list_fmap_ext. intros i x Hx.
  apply H. eapply list_elem_of_lookup_2, Hx.
Qed.

Lemma sum_fmap_mult {A : Type} (e : R) (f : A -> R) (l : list A) :
  sum ((fun x => e * f x) <$> l) = e * sum (f <$> l).
Proof. rewrite <- sum_fmap_scale, <- list_fmap_compose. reflexivity. Qed.

Lemma nth_fmap_scale (e : R) (a : list R) (j : nat) :
  nth j (Rmult e <$> a) 0 = e * nth j a 0.
Proof.
  rewrite !nth_lookup, list_lookup_fmap. destruct (a !! j); cbn; lra.
Qed.

Lemma convolve_at_scale_r (e : R) (a v : list R) (n : nat) :
  convolve_at a (Rmult e <$> v) n = e * convolve_at a v n.
Proof.
  unfold convolve_at. rewrite <- sum_fmap_mult. apply sum_fmap_ext.
  intros m _. rewrite nth_fmap_scale. ring.
Qed.

(** ... and at index [n] it reads the second operand up to [n] only. *)
Lemma convolve_at_prefix (a v v' : list R) (n : nat) :
  (forall j : nat, (j <= n)%nat -> nth j v 0 = nth j v' 0) ->
  convolve_at a v n = convolve_at a v' n.
Proof.
  intros H. unfold convolve_at. apply sum_fmap_ext.
  intros m _. rewrite (H (n - m)%nat) by lia. reflexivity.
Qed.

Lemma clamp_scale (e x : R) : 0 < e -> clamp (e * x) = e * clamp x.
Proof.
  intros He. unfold clamp.
  destruct (decide (0 < e * x)), (decide (0 < x)); nra.
Qed.

Lemma zip_with_reflected_scale (e : R) (x t : list R) :
  zip_with (fun i t => - (i + t)) (Rmult e <$> x) (Rmult e <$> t) =
  Rmult e <$> zip_with (fun i t => - (i + t)) x t.
Proof.
  revert t. induction x as [|a x IH]; intros [|b t]; cbn; try reflexivity.
  f_equal; [ring | apply IH].
Qed.

(** X8 (positive homogeneity).  For valid parameters, multiplying every
    incident amplitude by one positive factor multiplies the sign-corrected
    incident, the transmitted and the reflected wave by that factor and
    leaves the delay and the output time axis as they are. *)
Theorem model_1d_homogeneous (df : DataFrame) (p : toml_table) (k : R) :
  valid_parameters p -> df <> [] -> 0 < k ->
  exists l l',
    model_1d_locals df p = Ok l /\
    model_1d_locals ((fun r : R * R => (r.1, k * r.2)) <$> df) p = Ok l' /\
    incident l' = Rmult k <$> incident l /\
    transmitted l' = Rmult k <$> transmitted l /\
    reflected l' = Rmult k <$> reflected l /\
    delay l' = delay l /\
    time_output l' = time_output l.
Proof.
  intros (E & rho & L & g & Hp & HE & Hrho & HL) Hdf Hk.
  set (df' := (fun r : R * R => (r.1, k * r.2)) <$> df).
  assert (Hdf' : df' <> []).
  { intros H. apply fmap_nil_inv in H. contradiction. }
  assert (H1 : df'.*1 = df.*1).
  { unfold df'. rewrite <- list_fmap_compose. reflexivity. }
  assert (H2 : df'.*2 = Rmult k <$> df.*2).
  { unfold df'. rewrite <- !list_fmap_compose. reflexivity. }
  assert (Hlen : length df' = length df) by (unfold df'; apply length_fmap).
  destruct (model_1d_run df p E rho L g Hp HE Hrho HL Hdf)
    as (l & Hl & Hc & _ & Htch & _ & _ & _ & Hdt & Hinc & Hdelay & Hker & _ & Hs &
        Htr & Hre & Hout).
  destruct (model_1d_run df' p E rho L g Hp HE Hrho HL Hdf')
    as (l' & Hl' & Hc' & _ & Htch' & _ & _ & _ & Hdt' & Hinc' & Hdelay' & Hker' & _ & _ &
        Htr' & Hre' & Hout').
  rewrite H1 in Hdt', Hker', Hout'. rewrite H2 in Hinc'. rewrite Hlen in Htr'.
  assert (Hkk : kernel l' = kernel l).
  { rewrite Hker, Hker', Htch, Htch'. reflexivity. }
  assert (Hii : incident l' = Rmult k <$> incident l).
  { rewrite Hinc, Hinc', <- !list_fmap_compose. apply list_fmap_ext.
    intros i x _. cbn. apply clamp_scale, Hk. }
  assert (Htt : transmitted l' = Rmult k <$> transmitted l).
  { rewrite Htr, Htr', Hkk, Hii, <- list_fmap_compose. apply list_fmap_ext.
    intros i n _. unfold compose. cbv beta.
    rewrite convolve_at_scale_r. field. lra. }
  assert (Hdd : delay l' = delay l).
  { rewrite Hdelay, Hdelay', Hc, Hc', Hdt, Hdt'. reflexivity. }
  exists l, l'. repeat split; try assumption.
  - rewrite Hre, Hre', Hii, Htt. apply zip_with_reflected_scale.
  - rewrite Hout, Hout', Hdd. reflexivity.
Qed.

(** X10 (causality).  For valid parameters and two incident tables over the
    same time axis whose amplitudes agree up to index [i], the transmitted
    and the reflected waves agree at index [i]: a sample of the truncated
    convolution reads no later incident sample. *)
Theorem model_1d_causal (df df' : DataFrame) (p : toml_table) (i : nat) :
  valid_parameters p -> df <> [] ->
  df'.*1 = df.*1 ->
  (forall j : nat, (j <= i)%nat -> df'.*2 !! j = df.*2 !! j) ->
  (i < length df)%nat ->
  exists l l' x r,
    model_1d_locals df p = Ok l /\
    model_1d_locals df' p = Ok l' /\
    transmitted l !! i = Some x /\ transmitted l' !! i = Some x /\
    reflected l !! i = Some r /\ reflected l' !! i = Some r.
Proof.
  intros (E & rho & L & g & Hp & HE & Hrho & HL) Hdf H1 H2 Hi.
  assert (Hlen : length df' = length df).
  { rewrite <- (length_fmap fst df'), H1. apply length_fmap. }
  assert (Hdf' : df' <> []).
  { intros ->. cbn in Hlen. lia. }
  destruct (model_1d_run df p E rho L g Hp HE Hrho HL Hdf)
    as (l & Hl & _ & _ & Htch & _ & _ & _ & _ & Hinc & _ & Hker & _ & _ &
        Htr & Hre & _).
  destruct (model_1d_run df' p E rho L g Hp HE Hrho HL Hdf')
    as (l' & Hl' & _ & _ & Htch' & _ & _ & _ & _ & Hinc' & _ & Hker' & _ & _ &
        Htr' & Hre' & _).
  rewrite H1 in Hker'. rewrite Hlen in Htr'.
  assert (Hkk : kernel l' = kernel l).
  { rewrite Hker, Hker', Htch, Htch'. reflexivity. }
  assert (Hii : forall j : nat, (j <= i)%nat -> incident l' !! j = incident l !! j).
  { intros j Hj. rewrite Hinc, Hinc', !list_lookup_fmap.
    pose proof (H2 j Hj) as H. rewrite !list_lookup_fmap in H. rewrite H. reflexivity. }
  assert (Hcv : convolve_at (kernel l') (incident l') i =
                convolve_at (kernel l) (incident l) i).
  { rewrite Hkk. apply convolve_at_prefix. intros j Hj.
    rewrite !nth_lookup, (Hii j Hj). reflexivity. }
  destruct (lookup_lt_is_Some_2 (incident l) i) as [a Ha].
  { rewrite Hinc, !length_fmap. exact Hi. }
  exists l, l', (-1 * convolve_at (kernel l) (incident l) i / sum (kernel l)),
    (- (a + -1 * convolve_at (kernel l) (incident l) i / sum (kernel l))).
  assert (Ht : transmitted l !! i =
               Some (-1 * convolve_at (kernel l) (incident l) i / sum (kernel l))).
  { rewrite Htr, list_lookup_fmap, lookup_seq_lt by lia. reflexivity. }
  assert (Ht' : transmitted l' !! i =
                Some (-1 * convolve_at (kernel l) (incident l) i / sum (kernel l))).
  { rewrite <- Hcv, <- Hkk.
    rewrite Htr', list_lookup_fmap, lookup_seq_lt by lia. reflexivity. }
  repeat split; try assumption.
  - rewrite Hre, lookup_zip_with, Ha. cbn. rewrite Ht. reflexivity.
  - rewrite Hre', lookup_zip_with, (Hii i), Ha by lia. cbn. rewrite Ht'. reflexivity.
Qed.

(* ===================================================================== *)
(** ** The rows of the returned table *)
(* ===================================================================== *)

Lemma filter_key_nil {B : Type} (k : R) (l : list (R * B)) :
  filter (fun r : R * B => r.1 = k) l = [] -> k ∉ l.*1.
Proof.
  intros Hnil Hin. apply list_elem_of_fmap in Hin as (r & -> & Hr).
  assert (H : r ∈ filter (fun r' : R * B => r'.1 = r.1) l).
  { apply list_elem_of_filter. auto. }
  rewrite Hnil in H. inversion H.
Qed.

Lemma elem_of_filter_key {B : Type} (k : R) (l : list (R * B)) (r : R * B) :
  r ∈ filter (fun r' : R * B => r'.1 = k) l -> r ∈ l /\ r.1 = k.
Proof. intros H. apply list_elem_of_filter in H as [? ?]. auto. Qed.



(* ===================================================================== *)
(** ** The error of rounding *)
(* ===================================================================== *)

(** Rounding to the nearest integer moves a number by at most one half. *)
Lemma rint_error (x : R) : - (1 / 2) <= IZR (rint x) - x <= 1 / 2.
Proof.
  unfold rint. pose proof (Zfloor_bound x) as Hf.
  destruct (decide (x - IZR (Zfloor x) < 1 / 2)); [lra|].
  destruct (decide (1 / 2 < x - IZR (Zfloor x))); [rewrite plus_IZR; lra|].
  destruct (Z.even (Zfloor x)); [lra | rewrite plus_IZR; lra].
Qed.

Lemma rint_nonneg (x : R) : 0 <= x -> (0 <= rint x)%Z.
Proof.
  intros Hx. unfold rint.
  assert (0 <= Zfloor x)%Z by (apply Zfloor_lub; exact Hx).
  destruct (decide (x - IZR (Zfloor x) < 1 / 2)); [lia|].
  destruct (decide (1 / 2 < x - IZR (Zfloor x))); [lia|].
  destruct (Z.even (Zfloor x)); lia.
Qed.

Lemma around_error (x : R) (decimals : nat) :
  Rabs (around x decimals - x) <= 1 / 2 / 10 ^ decimals.
Proof.
  unfold around. pose proof (pow10_pos decimals) as Hp.
  pose proof (rint_error (x * 10 ^ decimals)) as He.
  replace (IZR (rint (x * 10 ^ decimals)) / 10 ^ decimals - x)
    with ((IZR (rint (x * 10 ^ decimals)) - x * 10 ^ decimals) / 10 ^ decimals)
    by (field; lra).
  unfold Rdiv. rewrite Rabs_mult, (Rabs_pos_eq (/ 10 ^ decimals))
    by (apply Rlt_le, Rinv_0_lt_compat, Hp).
  apply Rmult_le_compat_r; [apply Rlt_le, Rinv_0_lt_compat, Hp|].
  apply Rabs_le. lra.
Qed.

Lemma around_nonneg (x : R) (decimals : nat) : 0 <= x -> 0 <= around x decimals.
Proof.
  intros Hx. unfold around. pose proof (pow10_pos decimals) as Hp.
  apply Rmult_le_pos; [|apply Rlt_le, Rinv_0_lt_compat, Hp].
  apply IZR_le, rint_nonneg. nra.
Qed.

(* ===================================================================== *)
(** ** Sorting and the median *)
(* ===================================================================== *)

Lemma insert_sorted_Permutation (x : R) (l : list R) : insert_sorted x l ≡ₚ x :: l.
Proof.
  induction l as [|y l IH]; cbn; [reflexivity|].
  destruct (decide (x <= y)); [reflexivity|].
  rewrite IH. apply Permutation_swap.
Qed.

Lemma sort_Permutation (l : list R) : sort l ≡ₚ l.
Proof.
  unfold sort. induction l as [|x l IH]; cbn; [reflexivity|].
  rewrite insert_sorted_Permutation, IH. reflexivity.
Qed.

Lemma length_sort (l : list R) : length (sort l) = length l.
Proof. rewrite sort_Permutation. reflexivity. Qed.

Lemma StronglySorted_insert_sorted (x : R) (l : list R) :
  StronglySorted Rle l -> StronglySorted Rle (insert_sorted x l).
Proof.
  induction 1 as [|y l Hl IH Hy]; cbn.
  - repeat constructor.
  - destruct (decide (x <= y)) as [Hxy|Hxy].
    + constructor; [constructor; assumption|].
      constructor; [exact Hxy|].
      eapply Forall_impl; [exact Hy|]. cbn. intros z Hz. lra.
    + constructor; [exact IH|].
      apply Forall_forall. intros z Hz.
      apply elem_of_insert_sorted in Hz as [->|Hz]; [lra|].
      rewrite Forall_forall in Hy. apply Hy, Hz.
Qed.

Lemma StronglySorted_sort (l : list R) : StronglySorted Rle (sort l).
Proof.
  unfold sort. induction l as [|x l IH]; cbn; [constructor|].
  apply StronglySorted_insert_sorted, IH.
Qed.

Lemma StronglySorted_lookup_le (s : list R) (i j : nat) (x y : R) :
  StronglySorted Rle s -> (i <= j)%nat ->
  s !! i = Some x -> s !! j = Some y -> x <= y.
Proof.
  intros Hs. revert i j. induction Hs as [|z s Hs IH Hz]; intros i j Hij Hi Hj.
  - discriminate.
  - destruct i as [|i], j as [|j]; cbn in *.
    + injection Hi as <-. injection Hj as <-. lra.
    + injection Hi as <-. rewrite Forall_forall in Hz.
      apply Hz. eapply list_elem_of_lookup_2, Hj.
    + lia.
    + apply (IH i j); [lia | assumption | assumption].
Qed.

Lemma filter_Forall_id (P : R -> Prop) `{!forall x, Decision (P x)} (l : list R) :
  Forall P l -> filter P l = l.
Proof.
  induction 1 as [|x l Hx Hl IH]; [reflexivity|].
  rewrite filter_cons_True by assumption. f_equal. exact IH.
Qed.

(** In a sorted list, a value below [h] at index [i] has [i + 1] values
    below [h] up to it ... *)
Lemma sorted_count_below (s : list R) (i : nat) (x h : R) :
  StronglySorted Rle s -> s !! i = Some x -> x < h ->
  (S i <= length (filter (fun y : R => (y < h)%R) s))%nat.
Proof.
  intros Hs Hi Hx.
  assert (Hsplit : length (filter (fun y : R => (y < h)%R) s) =
                   (length (filter (fun y : R => (y < h)%R) (take (S i) s)) +
                    length (filter (fun y : R => (y < h)%R) (drop (S i) s)))%nat).
  { rewrite <- length_app, <- filter_app, take_drop. reflexivity. }
  rewrite Hsplit, filter_Forall_id.
  - rewrite length_take. apply lookup_lt_Some in Hi. lia.
  - apply Forall_lookup. intros j y Hj.
    apply lookup_take_Some in Hj as [Hj Hlt].
    pose proof (StronglySorted_lookup_le s j i y x Hs ltac:(lia) Hj Hi). cbn. lra.
Qed.

(** ... and a value above [h] at index [i] has all the values from it on
    above [h]. *)
Lemma sorted_count_above (s : list R) (i : nat) (x h : R) :
  StronglySorted Rle s -> s !! i = Some x -> h < x ->
  (length s - i <= length (filter (fun y : R => (h < y)%R) s))%nat.
Proof.
  intros Hs Hi Hx.
  assert (Hsplit : length (filter (fun y : R => (h < y)%R) s) =
                   (length (filter (fun y : R => (h < y)%R) (take i s)) +
                    length (filter (fun y : R => (h < y)%R) (drop i s)))%nat).
  { rewrite <- length_app, <- filter_app, take_drop. reflexivity. }
  rewrite Hsplit, (filter_Forall_id _ (drop i s)).
  - rewrite length_drop. lia.
  - apply Forall_lookup. intros j y Hj. rewrite lookup_drop in Hj.
    pose proof (StronglySorted_lookup_le s i (i + j) x y Hs ltac:(lia) Hi Hj). cbn. lra.
Qed.

Lemma count_partition (h : R) (l : list R) :
  (length (filter (fun y : R => (y < h)%R) l) + length (filter (fun y : R => y = h) l) +
   length (filter (fun y : R => (h < y)%R) l) = length l)%nat.
Proof.
  induction l as [|x l IH]; [reflexivity|].
  rewrite !filter_cons.
  destruct (decide (x < h)), (decide (x = h)), (decide (h < x)); cbn; try lra; lia.
Qed.

(** The median of a list is the value that more than half of its elements
    have. *)
Lemma median_majority (h : R) (l : list R) :
  (length l < 2 * length (filter (fun y : R => y = h) l))%nat -> median l = h.
Proof.
  intros Hmaj.
  pose proof (StronglySorted_sort l) as Hs.
  pose proof (count_partition h (sort l)) as Hc.
  assert (Heq : length (filter (fun y : R => y = h) (sort l)) =
                length (filter (fun y : R => y = h) l))
    by (rewrite sort_Permutation; reflexivity).
  rewrite Heq, length_sort in Hc.
  assert (Hmid : forall i : nat, (i < length l)%nat ->
            (length l <= 2 * i + 2)%nat -> (2 * i <= length l)%nat ->
            nth i (sort l) 0 = h).
  { intros i Hi H1 H2.
    destruct (lookup_lt_is_Some_2 (sort l) i) as [x Hx]; [rewrite length_sort; lia|].
    rewrite (nth_lookup_Some _ _ _ _ Hx).
    destruct (Rtotal_order x h) as [Hlt|[Heq'|Hgt]]; [|exact Heq'|].
    - pose proof (sorted_count_below _ _ _ _ Hs Hx Hlt). lia.
    - pose proof (sorted_count_above _ _ _ _ Hs Hx Hgt) as H.
      rewrite length_sort in H. lia. }
  unfold median. rewrite length_sort.
  assert (Hn : (0 < length l)%nat) by lia.
  pose proof (Nat.div_mod_eq (length l) 2) as Hdm.
  pose proof (Nat.mod_upper_bound (length l) 2 ltac:(lia)) as Hmu.
  destruct (Nat.even (length l)) eqn:Hev.
  - apply Nat.even_spec in Hev as [k Hk].
    assert (Hk2 : (length l / 2 = k)%nat) by lia.
    rewrite Hk2, !Hmid by lia. field.
  - apply Hmid; lia.
Qed.

(** X16 (the sample interval is the step of most intervals).  For valid
    parameters and an incident table in which more than half of the
    differences of consecutive times are equal to [h], the sample interval
    [dt] is [h] rounded to 9 decimals, within half a nanosecond of [h], and
    [h] itself when [h] is a whole number of nanoseconds: a minority of
    irregular intervals does not change it. *)
Theorem sample_interval_majority (df : DataFrame) (p : toml_table) (h : R) :
  valid_parameters p -> df <> [] ->
  (length (diff df.*1) < 2 * length (filter (fun d : R => d = h) (diff df.*1)))%nat ->
  exists l,
    model_1d_locals df p = Ok l /\
    dt l = around h 9 /\
    Rabs (dt l - h) <= 1 / 2 / 10 ^ 9 /\
    (on_grid h -> dt l = h).
Proof.
  intros (E & rho & L & g & Hp & HE & Hrho & HL) Hdf Hmaj.
  destruct (model_1d_run df p E rho L g Hp HE Hrho HL Hdf)
    as (l & Hl & _ & _ & _ & _ & _ & _ & Hdt & _).
  rewrite (median_majority h _ Hmaj) in Hdt.
  exists l. split; [exact Hl|]. split; [exact Hdt|]. split.
  - rewrite Hdt. apply around_error.
  - intros Hg. rewrite Hdt. apply around_on_grid, Hg.
Qed.

Lemma length_diff (a : list R) : length (diff a) = (length a - 1)%nat.
Proof.
  induction a as [|x [|y a] IH]; try reflexivity.
  change (diff (x :: y :: a)) with ((y - x) :: diff (y :: a)).
  cbn [length] in *. rewrite IH. lia.
Qed.

(** The consecutive differences of a time axis with a constant step of
    [n] nanoseconds. *)
Lemma diff_uniform (k0 n : Z) (start len : nat) :
  Forall (fun d => d = IZR n / 10 ^ 9)
    (diff ((fun i : nat => IZR (k0 + Z.of_nat i * n) / 10 ^ 9) <$> seq start len)).
Proof.
  revert start. induction len as [|len IH]; intros start; [constructor|].
  destruct len as [|len]; [constructor|].
  change (diff ((fun i : nat => IZR (k0 + Z.of_nat i * n) / 10 ^ 9)
                  <$> seq start (S (S len))))
    with ((IZR (k0 + Z.of_nat (S start) * n) / 10 ^ 9 -
           IZR (k0 + Z.of_nat start * n) / 10 ^ 9)
          :: diff ((fun i : nat => IZR (k0 + Z.of_nat i * n) / 10 ^ 9)
                     <$> seq (S start) (S len))).
  constructor; [|apply IH].
  rewrite Nat2Z.inj_succ. unfold Z.succ.
  rewrite !plus_IZR, !mult_IZR, plus_IZR. pose proof (pow10_pos 9). field; lra.
Qed.

(** A run on a time axis with a constant step of [n] nanoseconds and a
    positive [gage_distance]: the delay is [m] steps and output time [i] is
    grid time [i + m]. *)
Lemma grid_run (df : DataFrame) (p : toml_table)
    (E rho L g : R) (k0 n : Z) (N : nat) :
  read_parameters p = Some (E, rho, L, Some g) ->
  0 < E -> 0 < rho -> 0 < L -> 0 < g ->
  (0 < n)%Z -> (2 <= N)%nat ->
  df.*1 = (fun i : nat => IZR (k0 + Z.of_nat i * n) / 10 ^ 9) <$> seq 0 N ->
  exists l (m : nat),
    model_1d_locals df p = Ok l /\
    dt l = IZR n / 10 ^ 9 /\
    delay l = INR m * dt l /\
    (forall i : nat,
       IZR (k0 + Z.of_nat i * n) / 10 ^ 9 + delay l =
       IZR (k0 + Z.of_nat (i + m) * n) / 10 ^ 9) /\
    time_output l =
      (fun i : nat => IZR (k0 + Z.of_nat (i + m) * n) / 10 ^ 9) <$> seq 0 N.
Proof.
  intros Hp HE Hrho HL Hg Hn HN Haxis.
  assert (Hdf : df <> []).
  { intros ->. apply (f_equal length) in Haxis.
    rewrite !length_fmap, length_seq in Haxis. cbn in Haxis. lia. }
  pose proof (pow10_pos 9) as Hpow.
  assert (Hmed : median (diff df.*1) = IZR n / 10 ^ 9).
  { apply median_majority.
    rewrite filter_Forall_id by (rewrite Haxis; apply diff_uniform).
    rewrite length_diff, Haxis, length_fmap, length_seq. lia. }
  destruct (model_1d_run df p E rho L (Some g) Hp HE Hrho HL Hdf)
    as (l & Hl & _ & Hc0 & _ & _ & _ & _ & Hldt & _ & Hdelay & _ & _ & _ & _ & _ & Hout).
  rewrite Hmed, around_IZR in Hldt.
  assert (Hdt0 : 0 < dt l).
  { rewrite Hldt. apply Rdiv_lt_0_compat; [apply IZR_lt, Hn | exact Hpow]. }
  change (default 0 (Some g)) with g in Hdelay.
  destruct (decide (g = 0)) as [|_]; [lra|].
  set (D := around ((2 * g + L) / c l) 9) in *.
  assert (HD : 0 <= D).
  { apply around_nonneg, Rlt_le, Rdiv_lt_0_compat; lra. }
  unfold floor_divide in Hdelay.
  set (z := Zfloor (D * 1e9 / (dt l * 1e9))) in *.
  assert (Hz : (0 <= z)%Z).
  { apply Zfloor_lub. apply Rmult_le_pos; [nra|].
    apply Rlt_le, Rinv_0_lt_compat. nra. }
  assert (Hshift : forall i : nat,
            IZR (k0 + Z.of_nat i * n) / 10 ^ 9 + delay l =
            IZR (k0 + Z.of_nat (i + Z.to_nat z) * n) / 10 ^ 9).
  { intros i. rewrite Hdelay, Hldt, Nat2Z.inj_add, Z2Nat.id by exact Hz.
    rewrite !plus_IZR, !mult_IZR, plus_IZR. field; lra. }
  exists l, (Z.to_nat z).
  split; [exact Hl|]. split; [exact Hldt|]. split.
  { rewrite INR_IZR_INZ, Z2Nat.id by exact Hz. exact Hdelay. }
  split; [exact Hshift|].
  rewrite Hout, Haxis, <- list_fmap_compose. apply list_fmap_ext.
  intros i j _. cbn. rewrite Hshift, around_IZR. reflexivity.
Qed.

(** X17 (the delayed axis lands on the samples).  For valid parameters with
    a positive [gage_distance] and an incident time axis of at least two
    samples with a constant step of [n > 0] nanoseconds, starting at a
    whole number of nanoseconds, the sample interval is that step, the
    delay is [m] steps for a natural number [m], every output time is the
    incident time plus the delay exactly, and it is the incident time [m]
    samples later whenever there is one. *)
Theorem delayed_axis_on_samples (df : DataFrame) (p : toml_table)
    (E rho L g : R) (k0 n : Z) (N : nat) :
  read_parameters p = Some (E, rho, L, Some g) ->
  0 < E -> 0 < rho -> 0 < L -> 0 < g ->
  (0 < n)%Z -> (2 <= N)%nat ->
  df.*1 = (fun i : nat => IZR (k0 + Z.of_nat i * n) / 10 ^ 9) <$> seq 0 N ->
  exists l (m : nat),
    model_1d_locals df p = Ok l /\
    dt l = IZR n / 10 ^ 9 /\
    delay l = INR m * dt l /\
    (forall (i : nat) (t : R), df.*1 !! i = Some t ->
       time_output l !! i = Some (t + delay l)) /\
    (forall i : nat, (i + m < N)%nat -> time_output l !! i = df.*1 !! (i + m)%nat).
Proof.
  intros Hp HE Hrho HL Hg Hn HN Haxis.
  destruct (grid_run df p E rho L g k0 n N Hp HE Hrho HL Hg Hn HN Haxis)
    as (l & m & Hl & Hdt & Hdelay & Hshift & Hout).
  exists l, m.
  split; [exact Hl|]. split; [exact Hdt|]. split; [exact Hdelay|]. split.
  - intros i t Hi. rewrite Haxis, list_lookup_fmap in Hi.
    destruct (seq 0 N !! i) as [j|] eqn:Hj; [|discriminate].
    apply lookup_seq in Hj as [-> Hj]. cbn in Hi. injection Hi as <-.
    rewrite Hout, list_lookup_fmap, lookup_seq_lt by lia. cbn.
    rewrite Hshift. reflexivity.
  - intros i Hi.
    rewrite Hout, Haxis, !list_lookup_fmap, !lookup_seq_lt by lia. reflexivity.
Qed.

(* ===================================================================== *)
(** ** The order and the number of the rows *)
(* ===================================================================== *)

Lemma merge_outer_rows_at (left : DataFrame) (right : list (R * (R * R))) :
  merge_outer left right =
  remove_dups (sort (left.*1 ++ right.*1)) ≫= rows_at left right.
Proof. reflexivity. Qed.

Lemma rows_at_time (left : DataFrame) (right : list (R * (R * R))) (k : R) (row : row) :
  row ∈ rows_at left right k -> Time row = k.
Proof.
  unfold rows_at. intros H.
  destruct (filter (fun l : R * R => l.1 = k) left) as [|l0 ls];
    destruct (filter (fun r : R * (R * R) => r.1 = k) right) as [|r0 rs].
  - inversion H.
  - apply list_elem_of_fmap in H as (r & -> & _). reflexivity.
  - apply list_elem_of_fmap in H as (l & -> & _). reflexivity.
  - apply list_elem_of_bind in H as (l & H & _).
    apply list_elem_of_fmap in H as (r & -> & _). reflexivity.
Qed.

Lemma StronglySorted_remove_dups (l : list R) :
  StronglySorted Rle l -> StronglySorted Rle (remove_dups l).
Proof.
  induction 1 as [|x l Hl IH Hx]; cbn; [constructor|].
  destruct (decide_rel elem_of x l); [exact IH|].
  constructor; [exact IH|].
  apply Forall_forall. intros y Hy. rewrite elem_of_remove_dups in Hy.
  rewrite Forall_forall in Hx. apply Hx, Hy.
Qed.

Lemma StronglySorted_NoDup_lt (l : list R) :
  StronglySorted Rle l -> NoDup l -> StronglySorted Rlt l.
Proof.
  induction 1 as [|x l Hl IH Hx]; intros Hnd; [constructor|].
  apply NoDup_cons in Hnd as [Hnin Hnd].
  constructor; [apply IH, Hnd|].
  apply Forall_forall. intros y Hy. rewrite Forall_forall in Hx.
  pose proof (Hx y Hy) as Hle. destruct Hle as [Hlt|Heq]; [exact Hlt|].
  subst y. contradiction.
Qed.

Lemma StronglySorted_lt_NoDup (l : list R) : StronglySorted Rlt l -> NoDup l.
Proof.
  induction 1 as [|x l Hl IH Hx]; [constructor|].
  apply NoDup_cons. split; [|exact IH].
  intros Hin. rewrite Forall_forall in Hx. pose proof (Hx x Hin). lra.
Qed.


Lemma StronglySorted_constant (k : R) (l : list R) :
  Forall (fun t => t = k) l -> StronglySorted Rle l.
Proof.
  induction 1 as [|t ts Ht Hts IH]; constructor; [exact IH|].
  eapply Forall_impl; [exact Hts|]. cbn. intros; lra.
Qed.

(** Rows built key by key over sorted keys are sorted by time. *)
Lemma bind_rows_sorted (f : R -> list row) (keys : list R) :
  StronglySorted Rle keys ->
  (forall k row, row ∈ f k -> Time row = k) ->
  StronglySorted Rle (Time <$> (keys ≫= f)).
Proof.
  intros Hs Hf. induction Hs as [|k keys Hs IH Hk]; [constructor|].
  rewrite bind_cons, fmap_app. apply StronglySorted_app_2.
  - intros x1 x2 H1 H2.
    apply list_elem_of_fmap in H1 as (r1 & -> & H1). rewrite (Hf k r1 H1).
    apply list_elem_of_fmap in H2 as (r2 & -> & H2).
    apply list_elem_of_bind in H2 as (k' & H2 & Hk').
    rewrite (Hf k' r2 H2). rewrite Forall_forall in Hk. apply Hk, Hk'.
  - apply StronglySorted_constant with k.
    apply Forall_fmap, Forall_forall. intros r Hr. apply (Hf k r Hr).
  - exact IH.
Qed.

(** With one row for every key, the times of the rows are the keys. *)
Lemma bind_rows_single (f : R -> list row) (keys : list R) :
  (forall k, k ∈ keys -> exists row, f k = [row] /\ Time row = k) ->
  Time <$> (keys ≫= f) = keys.
Proof.
  induction keys as [|k keys IH]; intros Hf; [reflexivity|].
  destruct (Hf k ltac:(left)) as (row & Hrow & Ht).
  rewrite bind_cons, fmap_app, Hrow, IH; [cbn; rewrite Ht; reflexivity|].
  intros k' Hk'. apply Hf. right. exact Hk'.
Qed.

Lemma filter_key_NoDup {B : Type} (k : R) (l : list (R * B)) :
  NoDup l.*1 -> (length (filter (fun r : R * B => r.1 = k) l) <= 1)%nat.
Proof.
  induction l as [|[k' v] l IH]; intros Hnd; [cbn; lia|].
  cbn in Hnd. apply NoDup_cons in Hnd as [Hnin Hnd].
  rewrite filter_cons. cbn. destruct (decide (k' = k)) as [->|Hne].
  - cbn. destruct (filter (fun r : R * B => r.1 = k) l) as [|r rs] eqn:Hf; [cbn; lia|].
    exfalso. apply Hnin.
    assert (Hr : r ∈ filter (fun r : R * B => r.1 = k) l) by (rewrite Hf; left).
    apply elem_of_filter_key in Hr as [Hr <-].
    apply list_elem_of_fmap. exists r. auto.
  - apply IH, Hnd.
Qed.

Lemma rows_at_single (left : DataFrame) (right : list (R * (R * R))) (k : R) :
  NoDup left.*1 -> NoDup right.*1 -> k ∈ left.*1 \/ k ∈ right.*1 ->
  exists row, rows_at left right k = [row] /\ Time row = k.
Proof.
  intros Hl Hr Hk. unfold rows_at.
  pose proof (filter_key_NoDup k left Hl) as H1.
  pose proof (filter_key_NoDup k right Hr) as H2.
  destruct (filter (fun l : R * R => l.1 = k) left) as [|l0 [|l1 ls]] eqn:Hls;
    destruct (filter (fun r : R * (R * R) => r.1 = k) right) as [|r0 [|r1 rs]] eqn:Hrs;
    cbn in H1, H2; try lia; cbn; eauto.
  exfalso. destruct Hk as [Hk|Hk].
  - apply (filter_key_nil k left Hls), Hk.
  - apply (filter_key_nil k right Hrs), Hk.
Qed.

(** X18 (the table is ordered by time).  In the table [model_1d] returns
    for valid parameters the times of the rows never decrease; when no two
    incident samples share a time and no two output times coincide, they
    increase strictly: the table has one row for every time. *)
Theorem model_1d_table_ordered (df : DataFrame) (p : toml_table) :
  valid_parameters p -> df <> [] ->
  exists l rows,
    model_1d_locals df p = Ok l /\
    model_1d df p = Ok rows /\
    StronglySorted Rle (Time <$> rows) /\
    (NoDup df.*1 -> NoDup (time_output l) -> StronglySorted Rlt (Time <$> rows)).
Proof.
  intros Hp Hdf.
  destruct (model_1d_locals_valid df p Hp Hdf)
    as (l & conv & Hl & _ & _ & Htime & _ & _ & _ & _ & _ & _ & _ & _ & _ & Hlt & Hlr).
  destruct (model_1d_locals_inv df p l Hl)
    as (_ & _ & _ & _ & _ & _ & _ & _ & _ & _ & _ & _ & _ & _ &
        _ & _ & _ & _ & _ & _ & Hout).
  assert (Hlo : length (time_output l) = length df).
  { rewrite Hout, Htime, !length_fmap. reflexivity. }
  set (right := zip (time_output l) (zip (reflected l) (transmitted l))).
  assert (Hfst : right.*1 = time_output l).
  { unfold right. apply fst_zip. rewrite length_zip, Hlo, Hlt, Hlr. lia. }
  exists l, (merge_outer df right).
  split; [exact Hl|]. split; [unfold model_1d; rewrite Hl; reflexivity|].
  rewrite merge_outer_rows_at.
  assert (Hkeys : StronglySorted Rle (remove_dups (sort (df.*1 ++ right.*1)))).
  { apply StronglySorted_remove_dups, StronglySorted_sort. }
  split.
  - apply bind_rows_sorted; [exact Hkeys|]. apply rows_at_time.
  - intros Hnd1 Hnd2. rewrite bind_rows_single.
    + apply StronglySorted_NoDup_lt; [exact Hkeys | apply NoDup_remove_dups].
    + intros k Hk. apply merge_outer_keys in Hk.
      apply rows_at_single; [exact Hnd1 | rewrite Hfst; exact Hnd2 | exact Hk].
Qed.


Lemma filter_key_unique {B : Type} (l : list (R * B)) (i : nat) (k : R) (v : B) :
  NoDup l.*1 -> l !! i = Some (k, v) ->
  filter (fun r : R * B => r.1 = k) l = [(k, v)].
Proof.
  intros Hnd Hi.
  assert (Hin : (k, v) ∈ filter (fun r : R * B => r.1 = k) l).
  { apply list_elem_of_filter. split; [reflexivity|]. eapply list_elem_of_lookup_2, Hi. }
  pose proof (filter_key_NoDup k l Hnd) as Hlen.
  destruct (filter (fun r : R * B => r.1 = k) l) as [|y [|z ys]]; cbn in Hlen.
  - inversion Hin.
  - apply list_elem_of_singleton in Hin as <-. reflexivity.
  - lia.
Qed.




(* ===================================================================== *)
(** ** The further properties on concrete inputs *)
(* ===================================================================== *)

Lemma two_positive : 0 < 2.
Proof. lra. Qed.

Lemma pulse_df_late_prefix (j : nat) :
  (j <= 1)%nat -> pulse_df_late.*2 !! j = pulse_df.*2 !! j.
Proof. intros Hj. destruct j as [|[|j]]; [reflexivity | reflexivity | lia]. Qed.



Lemma jitter_df_majority :
  (length (diff jitter_df.*1) <
   2 * length (filter (fun d : R => d = 1e-6%R) (diff jitter_df.*1)))%nat.
Proof.
  unfold jitter_df. cbn [fmap list_fmap fst diff].
  rewrite !filter_cons, filter_nil. decide_reals. cbn. lia.
Qed.

Lemma jitter_df_nonempty : jitter_df <> [].
Proof. discriminate. Qed.

Lemma grid_df_axis :
  grid_df.*1 = (fun i : nat => IZR (0 + Z.of_nat i * 1000) / 10 ^ 9) <$> seq 0 4.
Proof. reflexivity. Qed.


(** [get_incident_data_scale] on the pulse file and the pulse file with
    doubled amplitudes. *)
Lemma get_incident_data_scale_pulse :
  exists df,
    get_incident_data pulse_file = Ok df /\
    get_incident_data pulse_file_doubled = Ok df /\
    forall p : toml_table, main pulse_file_doubled p = main pulse_file p.
Proof.
  exact (get_incident_data_scale pulse_file pulse_file_doubled 2 two_positive
           pulse_file_suffix eq_refl eq_refl pulse_file_nondegenerate).
Defined.

(** [get_incident_data_idempotent] on the series prepared from the pulse
    file. *)
Lemma get_incident_data_idempotent_pulse :
  get_incident_data prepared_pulse_file =
    Ok [(0, 1 / 5); (2e-6, -5 / 5); (3e-6, -2.5 / 5)].
Proof.
  exact (get_incident_data_idempotent pulse_file prepared_pulse_file _
           get_incident_data_example pulse_file_nondegenerate eq_refl eq_refl).
Defined.

(** [model_1d_homogeneous] on the pulse table, doubled. *)
Lemma model_1d_homogeneous_pulse :
  exists l l',
    model_1d_locals pulse_df scenario_A_parameters = Ok l /\
    model_1d_locals ((fun r : R * R => (r.1, 2 * r.2)) <$> pulse_df)
      scenario_A_parameters = Ok l' /\
    incident l' = Rmult 2 <$> incident l /\
    transmitted l' = Rmult 2 <$> transmitted l /\
    reflected l' = Rmult 2 <$> reflected l /\
    delay l' = delay l /\
    time_output l' = time_output l.
Proof.
  exact (model_1d_homogeneous pulse_df scenario_A_parameters 2
           scenario_A_parameters_valid pulse_df_nonempty two_positive).
Defined.

(** [model_1d_causal] on two tables that differ in their last amplitude. *)
Lemma model_1d_causal_pulse :
  exists l l' x r,
    model_1d_locals pulse_df scenario_A_parameters = Ok l /\
    model_1d_locals pulse_df_late scenario_A_parameters = Ok l' /\
    transmitted l !! 1%nat = Some x /\ transmitted l' !! 1%nat = Some x /\
    reflected l !! 1%nat = Some r /\ reflected l' !! 1%nat = Some r.
Proof.
  refine (model_1d_causal pulse_df pulse_df_late scenario_A_parameters 1
            scenario_A_parameters_valid pulse_df_nonempty eq_refl
            pulse_df_late_prefix _).
  cbn. lia.
Defined.


(** [sample_interval_majority] on a table with one irregular interval. *)
Lemma sample_interval_majority_jitter :
  exists l,
    model_1d_locals jitter_df scenario_A_parameters = Ok l /\
    dt l = around 1e-6 9 /\
    Rabs (dt l - 1e-6) <= 1 / 2 / 10 ^ 9 /\
    (on_grid 1e-6 -> dt l = 1e-6).
Proof.
  exact (sample_interval_majority jitter_df scenario_A_parameters 1e-6
           scenario_A_parameters_valid jitter_df_nonempty jitter_df_majority).
Defined.

(** [delayed_axis_on_samples] on four samples one microsecond apart. *)
Lemma delayed_axis_on_samples_grid :
  exists l (m : nat),
    model_1d_locals grid_df gage_parameters = Ok l /\
    dt l = IZR 1000 / 10 ^ 9 /\
    delay l = INR m * dt l /\
    (forall (i : nat) (t : R), grid_df.*1 !! i = Some t ->
       time_output l !! i = Some (t + delay l)) /\
    (forall i : nat, (i + m < 4)%nat -> time_output l !! i = grid_df.*1 !! (i + m)%nat).
Proof.
  refine (delayed_axis_on_samples grid_df gage_parameters 70e9 2700 0.5 0.1 0 1000 4
            gage_parameters_read _ _ _ _ _ _ grid_df_axis);
    first [lra | lia].
Defined.

(** [model_1d_table_ordered] on the pulse table. *)
Lemma model_1d_table_ordered_pulse :
  exists l rows,
    model_1d_locals pulse_df scenario_A_parameters = Ok l /\
    model_1d pulse_df scenario_A_parameters = Ok rows /\
    StronglySorted Rle (Time <$> rows) /\
    (NoDup pulse_df.*1 -> NoDup (time_output l) -> StronglySorted Rlt (Time <$> rows)).
Proof.
  exact (model_1d_table_ordered pulse_df scenario_A_parameters
           scenario_A_parameters_valid pulse_df_nonempty).
Defined.


(* ===================================================================== *)
(** ** The table under a delay *)
(* ===================================================================== *)

Lemma grid_lt (k0 n : Z) (i j : nat) :
  (0 < n)%Z -> (i < j)%nat ->
  IZR (k0 + Z.of_nat i * n) / 10 ^ 9 < IZR (k0 + Z.of_nat j * n) / 10 ^ 9.
Proof.
  intros Hn Hij. pose proof (pow10_pos 9) as Hp.
  apply Rmult_lt_compat_r; [apply Rinv_0_lt_compat, Hp|].
  apply IZR_lt. nia.
Qed.

Lemma grid_increasing (k0 n : Z) (m start len : nat) :
  (0 < n)%Z ->
  StronglySorted Rlt
    ((fun i : nat => IZR (k0 + Z.of_nat (i + m) * n) / 10 ^ 9) <$> seq start len).
Proof.
  intros Hn. revert start. induction len as [|len IH]; intros start; [constructor|].
  cbn. constructor; [apply IH|].
  apply Forall_fmap, Forall_forall. intros j Hj. cbn.
  apply elem_of_seq in Hj. apply grid_lt; [exact Hn | lia].
Qed.

Lemma filter_key_absent {B : Type} (k : R) (l : list (R * B)) :
  k ∉ l.*1 -> filter (fun r : R * B => r.1 = k) l = [].
Proof.
  intros Hnin.
  destruct (filter (fun r : R * B => r.1 = k) l) as [|r rs] eqn:Hf; [reflexivity|].
  exfalso. apply Hnin.
  assert (Hr : r ∈ filter (fun r : R * B => r.1 = k) l) by (rewrite Hf; left).
  apply elem_of_filter_key in Hr as [Hr <-].
  apply list_elem_of_fmap. exists r. auto.
Qed.

(** X21 (the table under a delay).  For valid parameters with a positive
    [gage_distance] and an incident time axis of at least two samples with a
    constant step of [n > 0] nanoseconds, the delay being [m] steps, the
    table [model_1d] returns has strictly increasing times and holds: for
    each of the first [m] incident samples a row with its amplitude and no
    waves; for every incident sample [i + m] a row with its amplitude and
    with [reflected[i]] and [transmitted[i]]; and for every index [i] whose
    output time lies past the last incident time a row with [reflected[i]]
    and [transmitted[i]] and no Incident value. *)
Theorem model_1d_table_delayed (df : DataFrame) (p : toml_table)
    (E rho L g : R) (k0 n : Z) (N : nat) :
  read_parameters p = Some (E, rho, L, Some g) ->
  0 < E -> 0 < rho -> 0 < L -> 0 < g ->
  (0 < n)%Z -> (2 <= N)%nat ->
  df.*1 = (fun i : nat => IZR (k0 + Z.of_nat i * n) / 10 ^ 9) <$> seq 0 N ->
  exists l (m : nat) rows,
    model_1d_locals df p = Ok l /\
    model_1d df p = Ok rows /\
    delay l = INR m * dt l /\
    StronglySorted Rlt (Time <$> rows) /\
    (forall (i : nat) (t a : R), df !! i = Some (t, a) -> (i < m)%nat ->
       {| Time := t; Incident := Some a; Reflected := None; Transmitted := None |}
         ∈ rows) /\
    (forall (i : nat) (t a r x : R),
       df !! (i + m)%nat = Some (t, a) ->
       reflected l !! i = Some r -> transmitted l !! i = Some x ->
       {| Time := t; Incident := Some a; Reflected := Some r; Transmitted := Some x |}
         ∈ rows) /\
    (forall (i : nat) (t r x : R),
       time_output l !! i = Some t ->
       reflected l !! i = Some r -> transmitted l !! i = Some x ->
       (N <= i + m)%nat ->
       {| Time := t; Incident := None; Reflected := Some r; Transmitted := Some x |}
         ∈ rows).
Proof.
  intros Hp HE Hrho HL Hg Hn HN Haxis.
  destruct (grid_run df p E rho L g k0 n N Hp HE Hrho HL Hg Hn HN Haxis)
    as (l & m & Hl & Hdt & Hdelay & Hshift & Hout).
  assert (Hlen : length df = N).
  { rewrite <- (length_fmap fst df), Haxis, length_fmap, length_seq. reflexivity. }
  assert (Hdf : df <> []) by (intros ->; cbn in Hlen; lia).
  assert (Hv : valid_parameters p) by (exists E, rho, L, (Some g); auto).
  destruct (model_1d_locals_valid df p Hv Hdf)
    as (l0 & _ & Hl0 & _ & _ & _ & _ & _ & _ & _ & _ & _ & _ & _ & _ & Hlt & Hlr).
  rewrite Hl in Hl0. injection Hl0 as <-.
  set (G := fun i : nat => IZR (k0 + Z.of_nat i * n) / 10 ^ 9) in *.
  assert (Hts : StronglySorted Rlt df.*1).
  { rewrite Haxis.
    pose proof (grid_increasing k0 n 0 0 N Hn) as H.
    erewrite list_fmap_ext; [exact H|]. intros i j _. unfold G. cbn.
    rewrite Nat.add_0_r. reflexivity. }
  assert (Hto : StronglySorted Rlt (time_output l)).
  { rewrite Hout. apply grid_increasing, Hn. }
  pose proof (StronglySorted_lt_NoDup _ Hts) as Hnd1.
  pose proof (StronglySorted_lt_NoDup _ Hto) as Hnd2.
  set (right := zip (time_output l) (zip (reflected l) (transmitted l))).
  assert (Hfst : right.*1 = time_output l).
  { unfold right. apply fst_zip.
    rewrite length_zip, Hout, length_fmap, length_seq, Hlt, Hlr. lia. }
  assert (Hdfi : forall (i : nat) (t a : R), df !! i = Some (t, a) ->
            t = G i /\ (i < N)%nat).
  { intros i t a Hi.
    assert (H : df.*1 !! i = Some t) by (rewrite list_lookup_fmap, Hi; reflexivity).
    rewrite Haxis, list_lookup_fmap in H.
    destruct (seq 0 N !! i) as [j|] eqn:Hj; [|discriminate].
    apply lookup_seq in Hj as [-> Hj]. cbn in H. injection H as <-. auto. }
  assert (Htoi : forall (i : nat) (t : R), time_output l !! i = Some t ->
            t = G (i + m)%nat /\ (i < N)%nat).
  { intros i t Hi. rewrite Hout, list_lookup_fmap in Hi.
    destruct (seq 0 N !! i) as [j|] eqn:Hj; [|discriminate].
    apply lookup_seq in Hj as [-> Hj]. cbn in Hi. injection Hi as <-. auto. }
  assert (Hmono : forall i j : nat, G i = G j -> i = j).
  { intros i j Hij. destruct (Nat.lt_trichotomy i j) as [H|[H|H]]; [|exact H|].
    - pose proof (grid_lt k0 n i j Hn H). unfold G in Hij. lra.
    - pose proof (grid_lt k0 n j i Hn H). unfold G in Hij. lra. }
  assert (Hright : forall (i : nat) (t r x : R),
            time_output l !! i = Some t -> reflected l !! i = Some r ->
            transmitted l !! i = Some x -> right !! i = Some (t, (r, x))).
  { intros i t r x Ht Hr Hx. unfold right.
    apply lookup_zip_with_Some. exists t, (r, x). repeat split; [exact Ht|].
    apply lookup_zip_with_Some. exists r, x. auto. }
  exists l, m, (merge_outer df right).
  split; [exact Hl|]. split; [unfold model_1d; rewrite Hl; reflexivity|].
  split; [exact Hdelay|].
  rewrite merge_outer_rows_at. split; [|split; [|split]].
  - rewrite bind_rows_single.
    + apply StronglySorted_NoDup_lt; [|apply NoDup_remove_dups].
      apply StronglySorted_remove_dups, StronglySorted_sort.
    + intros k Hk. apply merge_outer_keys in Hk.
      apply rows_at_single; [exact Hnd1 | rewrite Hfst; exact Hnd2 | exact Hk].
  - intros i t a Hi Him.
    apply list_elem_of_bind. exists t. split.
    + unfold rows_at. rewrite (filter_key_unique df i t a Hnd1 Hi).
      rewrite filter_key_absent; [left|].
      rewrite Hfst. intros Hin. apply list_elem_of_lookup in Hin as (j & Hj).
      destruct (Htoi j t Hj) as [Ht _]. destruct (Hdfi i t a Hi) as [Ht' _].
      rewrite Ht' in Ht. apply Hmono in Ht. lia.
    + apply merge_outer_keys. left. apply list_elem_of_fmap.
      exists (t, a). split; [reflexivity|]. eapply list_elem_of_lookup_2, Hi.
  - intros i t a r x Hi Hr Hx.
    destruct (Hdfi _ t a Hi) as [Ht HiN].
    assert (Hto_i : time_output l !! i = Some t).
    { rewrite Hout, list_lookup_fmap, lookup_seq_lt by lia. cbn. rewrite Ht. reflexivity. }
    apply list_elem_of_bind. exists t. split.
    + unfold rows_at. rewrite (filter_key_unique df _ t a Hnd1 Hi).
      rewrite (filter_key_unique right i t (r, x));
        [left | rewrite Hfst; exact Hnd2 | apply Hright; assumption].
    + apply merge_outer_keys. left. apply list_elem_of_fmap.
      exists (t, a). split; [reflexivity|]. eapply list_elem_of_lookup_2, Hi.
  - intros i t r x Ht Hr Hx Him.
    apply list_elem_of_bind. exists t. split.
    + unfold rows_at. rewrite (filter_key_absent t df).
      * rewrite (filter_key_unique right i t (r, x));
          [left | rewrite Hfst; exact Hnd2 | apply Hright; assumption].
      * intros Hin. apply list_elem_of_fmap in Hin as ([t' a] & Heq & Hin).
        cbn in Heq. subst t'. apply list_elem_of_lookup in Hin as (j & Hj).
        destruct (Hdfi j t a Hj) as [Ht1 HjN]. destruct (Htoi i t Ht) as [Ht2 _].
        rewrite Ht1 in Ht2. apply Hmono in Ht2. lia.
    + apply merge_outer_keys. right. rewrite Hfst.
      eapply list_elem_of_lookup_2, Ht.
Qed.

(** [model_1d_table_delayed] on four samples one microsecond apart. *)
Lemma model_1d_table_delayed_grid :
  exists l (m : nat) rows,
    model_1d_locals grid_df gage_parameters = Ok l /\
    model_1d grid_df gage_parameters = Ok rows /\
    delay l = INR m * dt l /\
    StronglySorted Rlt (Time <$> rows) /\
    (forall (i : nat) (t a : R), grid_df !! i = Some (t, a) -> (i < m)%nat ->
       {| Time := t; Incident := Some a; Reflected := None; Transmitted := None |}
         ∈ rows) /\
    (forall (i : nat) (t a r x : R),
       grid_df !! (i + m)%nat = Some (t, a) ->
       reflected l !! i = Some r -> transmitted l !! i = Some x ->
       {| Time := t; Incident := Some a; Reflected := Some r; Transmitted := Some x |}
         ∈ rows) /\
    (forall (i : nat) (t r x : R),
       time_output l !! i = Some t ->
       reflected l !! i = Some r -> transmitted l !! i = Some x ->
       (4 <= i + m)%nat ->
       {| Time := t; Incident := None; Reflected := Some r; Transmitted := Some x |}
         ∈ rows).
Proof.
  refine (model_1d_table_delayed grid_df gage_parameters 70e9 2700 0.5 0.1 0 1000 4
            gage_parameters_read _ _ _ _ _ _ grid_df_axis);
    first [lra | lia].
Defined.

(* ===================================================================== *)
(** ** Where binary64 parts from the real numbers *)
(* ===================================================================== *)

Lemma exp_nat_lower (n : nat) : 2 ^ n <= exp (INR n).
Proof.
  rewrite <- (Rmult_1_r (INR n)), exp_INR_mult.
  apply pow_incr. pose proof (exp_ineq1 1). lra.
Qed.

(** The wave speed of the Scenario A material, about 5092 m/s. *)
Lemma wave_speed_bounds : 5000 <= sqrt (70e9 / 2700) <= 6000.
Proof.
  split.
  - rewrite <- (sqrt_square 5000) at 1 by lra. apply sqrt_le_1; lra.
  - rewrite <- (sqrt_square 6000) by lra. apply sqrt_le_1; lra.
Qed.

(** A kernel value [n] characteristic times after the origin is at most
    [2^-n] times the inverse of the characteristic time. *)
Lemma kernel_below (tch t : R) (n m : nat) :
  0 < tch -> INR n * tch <= t -> / tch <= 2 ^ m ->
  0 < exp ((- t) / tch) / tch <= 2 ^ m / 2 ^ n.
Proof.
  intros Htch Ht Hinv.
  assert (H2n : 0 < 2 ^ n) by (apply pow_lt; lra).
  assert (He : exp ((- t) / tch) <= / 2 ^ n).
  { apply Rle_trans with (exp (- INR n)).
    - destruct (Req_dec ((- t) / tch) (- INR n)) as [->|Hne]; [lra|].
      apply Rlt_le, exp_increasing.
      assert ((- t) / tch <= - INR n); [|lra].
      apply Rmult_le_reg_r with tch; [exact Htch|].
      unfold Rdiv. rewrite Rmult_assoc, Rinv_l by lra. lra.
    - rewrite exp_Ropp. apply Rinv_le_contravar; [exact H2n | apply exp_nat_lower]. }
  pose proof (exp_pos ((- t) / tch)) as Hpos.
  pose proof (Rinv_0_lt_compat _ Htch) as Hi.
  pose proof (Rinv_0_lt_compat _ H2n) as Hi2.
  split; [apply Rdiv_lt_0_compat; assumption|].
  unfold Rdiv. rewrite (Rmult_comm (2 ^ m)).
  apply Rmult_le_compat; lra.
Qed.

(** C6 (delay quantization), at an input where the code misses it: a
    material with [elastic_modulus = 5e10] and [density = 2000] (wave
    speed 5000 m/s),
    [junction_length = 0.005], [gage_distance = 0.16], samples every
    microsecond.  In binary64 the sample interval is [1e-06] and the
    rounded travel time is [6.5e-05], 65 sample intervals; the products
    [6.5e-05 * 1e9] and [1e-06 * 1e9] of line 82 are
    [64999.999999999993] and [1000], their floor division is [64], and the
    delay is 64 sample intervals, where [floor(6.5e-05 / 1e-06) * 1e-06]
    is 65 of them.  On a table of one sample the delay is a NaN. *)
Theorem delay_binary64_one_step_short :
  binary64.around (binary64.median (binary64.diff [0; 1e-06; 2e-06]%float)) 9
    = 1e-06%float /\
  binary64.around ((2 * 0.16 + 0.005) / PrimFloat.sqrt (5e10 / 2000))%float 9
    = 6.5e-05%float /\
  (6.5e-05 * 1e9 = 64999.999999999993 /\ 1e-06 * 1e9 = 1000)%float /\
  binary64.floor_divide (6.5e-05 * 1e9) (1e-06 * 1e9) = 64%float /\
  binary64.delay [0; 1e-06; 2e-06]%float 5e10 2000 0.005 0.16 = (64 * 1e-06)%float /\
  (binary64.floor (6.5e-05 / 1e-06) * 1e-06 = 65 * 1e-06)%float /\
  (64 * 1e-06 <? 65 * 1e-06)%float = true /\
  is_nan (binary64.delay [0]%float 5e10 2000 0.005 0.16) = true.
Proof. vm_compute. repeat split; reflexivity. Qed.

(** C10 (sign of the transmitted wave), at an input where the code loses
    it.  With the Scenario A parameters and a table whose times start at
    one second, the
    model returns, and every kernel value lies, in exact arithmetic, below
    [2^-1075], half of the smallest positive binary64 number: rounded to
    binary64 every kernel value is 0.0, so is their sum, and line 86
    divides by it. *)
Theorem kernel_underflow_late_axis :
  exists l,
    model_1d_locals late_df scenario_A_parameters = Ok l /\
    time l = [1; 1.000001] /\
    Forall (fun k => Rabs k < / 2 ^ 1075) (kernel l).
Proof.
  destruct (model_1d_run late_df scenario_A_parameters 70e9 2700 0.5 (Some 0)
              scenario_A_parameters_read)
    as (l & Hl & _ & _ & Htch & Htch0 & _ & Htime & _ & _ & _ & Hker & _);
    [lra | lra | lra | discriminate |].
  exists l. split; [exact Hl|]. split; [exact Htime|].
  pose proof wave_speed_bounds as [Hlo Hhi].
  assert (Hup : t_ch l <= 1e-4).
  { rewrite Htch. apply Rmult_le_reg_r with (sqrt (70e9 / 2700)); [lra|].
    unfold Rdiv at 1. rewrite Rmult_assoc, Rinv_l by lra. lra. }
  assert (Hinv : / t_ch l <= 2 ^ 14).
  { rewrite Htch. unfold Rdiv. rewrite Rinv_mult, Rinv_inv. lra. }
  assert (Hk : forall t, 1 <= t -> Rabs (exp ((- t) / t_ch l) / t_ch l) < / 2 ^ 1075).
  { intros t Ht.
    destruct (kernel_below (t_ch l) t 1100 14 Htch0) as [Hpos Hle].
    - rewrite INR_IZR_INZ. change (Z.of_nat 1100) with 1100%Z. lra.
    - exact Hinv.
    - rewrite Rabs_pos_eq by lra.
      apply Rle_lt_trans with (2 ^ 14 / 2 ^ 1100); [exact Hle|].
      replace 1100%nat with (14 + 1086)%nat by reflexivity.
      rewrite pow_add.
      assert (H14 : 0 < 2 ^ 14) by (apply pow_lt; lra).
      assert (H1086 : 0 < 2 ^ 1086) by (apply pow_lt; lra).
      replace (2 ^ 14 / (2 ^ 14 * 2 ^ 1086)) with (/ 2 ^ 1086) by (field; lra).
      apply Rinv_lt_contravar.
      + apply Rmult_lt_0_compat; [apply pow_lt; lra | exact H1086].
      + apply Rlt_pow; [lra | lia]. }
  rewrite Hker. unfold late_df. cbn [fmap list_fmap fst].
  repeat constructor; apply Hk; lra.
Qed.
